(** * git_ga_benchmark: task generation and rubric evaluation

    A shallow embedding of [models.py], [eval.py] and [generate.py].

    Conventions of the embedding.
    - Python values that travel as JSON (GitHub items, comments, detail
      dictionaries) are [Py.value]; a [dict] is a [gmap string value].
    - A call either returns or raises: [Py.outcome].  [exn] stands for an
      instance of Python's [Exception], the class every [except Exception]
      of the sources handles.
    - The language model, the GitHub server and the file system are
      external.  They are parameters of the functions ([env] records), and
      what the program does to them (calls made, requests sent, files
      written) is threaded as explicit state.
    - A request always gets a response (transport errors are left out), and
      a header that is present parses as an integer.
    - [float] arithmetic is idealised as arithmetic in [Q].
    - [print], [time.sleep] and [mkdir] have no effect on any value
      and are left out; what a printed message is formatted with is
      evaluated where that can raise. *)

From Stdlib Require Import ZArith QArith String List Lia.
From stdpp Require Import base option list gmap strings pretty.

#[local] Set Warnings "-register-all".

(* ===================================================================== *)
(** * Python values, exceptions, and the state-and-exception monad *)
(* ===================================================================== *)

Module Py.

(** An exception object: its class name and [str(e)]. *)
Record exn := Exception { exn_class : string; exn_str : string }.

Inductive outcome (A : Type) : Type :=
| Return (a : A)
| Raise (e : exn).
Arguments Return {A} a.
Arguments Raise {A} e.

Inductive value : Type :=
| VNone
| VBool (b : bool)
| VInt (z : Z)
| VFloat (q : Q)
| VStr (s : string)
| VList (l : list value)
| VDict (d : gmap string value).

(** Truth value of an object, as [if x:] tests it. *)
Definition truthy (v : value) : bool :=
  match v with
  | VNone => false
  | VBool b => b
  | VInt z => negb (z =? 0)%Z
  | VFloat q => negb (Qnum q =? 0)%Z
  | VStr s => negb (String.eqb s EmptyString)
  | VList l => match l with [] => false | _ => true end
  | VDict d => negb (bool_decide (d = ∅))
  end.

(** [d.get(key, default)] on a dictionary. *)
Definition default_or_lookup (d : gmap string value) (key : string)
    (default : value) : value :=
  match d !! key with
  | Some x => x
  | None => default
  end.

(** [x or y] on an optional string: [None] and the empty string are both false. *)
Definition str_or (x : option string) (y : string) : string :=
  match x with
  | Some s => if String.eqb s EmptyString then y else s
  | None => y
  end.

(** Computations over a state [S] that may raise.  The state survives a
    raise, as the side effects of Python code do. *)
Definition M (S A : Type) : Type := S -> outcome A * S.

Definition ret {S A} (a : A) : M S A := fun s => (Return a, s).
Definition raise {S A} (e : exn) : M S A := fun s => (Raise e, s).
Definition lift {S A} (o : outcome A) : M S A := fun s => (o, s).

Definition bind {S A B} (m : M S A) (k : A -> M S B) : M S B :=
  fun s =>
    match m s with
    | (Return a, s') => k a s'
    | (Raise e, s') => (Raise e, s')
    end.

(** [try: body  except Exception as e: handler e]. *)
Definition try_except {S A} (body : M S A) (handler : exn -> M S A) : M S A :=
  fun s =>
    match body s with
    | (Return a, s') => (Return a, s')
    | (Raise e, s') => handler e s'
    end.

(** Sequencing of calls that may raise, without state. *)
Definition obind {A B} (o : outcome A) (k : A -> outcome B) : outcome B :=
  match o with
  | Return a => k a
  | Raise e => Raise e
  end.

Fixpoint omapM {A B} (f : A -> outcome B) (xs : list A) : outcome (list B) :=
  match xs with
  | [] => Return []
  | x :: rest =>
      obind (f x) (fun y => obind (omapM f rest) (fun ys => Return (y :: ys)))
  end.

Definition AttributeError : exn := Exception "AttributeError" "object has no attribute 'get'".
Definition TypeError (msg : string) : exn := Exception "TypeError" msg.
Definition KeyError (key : string) : exn := Exception "KeyError" ("'" +:+ key +:+ "'").

(** [v.get(key, default)]: only a [dict] has the method. *)
Definition get (v : value) (key : string) (default : value) : outcome value :=
  match v with
  | VDict d => Return (default_or_lookup d key default)
  | _ => Raise AttributeError
  end.

(** [v[key]] for a string key. *)
Definition subscript (v : value) (key : string) : outcome value :=
  match v with
  | VDict d =>
      match d !! key with
      | Some x => Return x
      | None => Raise (KeyError key)
      end
  | _ => Raise (TypeError "indices must be integers or slices, not str")
  end.

(** [v[:n]]: strings and lists are sliced, nothing else is. *)
Definition slice (v : value) (n : nat) : outcome value :=
  match v with
  | VStr s => Return (VStr (substring 0 n s))
  | VList l => Return (VList (take n l))
  | _ => Raise (TypeError "object is not subscriptable")
  end.

Fixpoint chars (s : string) : list value :=
  match s with
  | EmptyString => []
  | String c rest => VStr (String c EmptyString) :: chars rest
  end.

(** The elements [for x in v] visits.  A dictionary yields its keys (here
    in the order of the map, not of insertion). *)
Definition iter (v : value) : outcome (list value) :=
  match v with
  | VStr s => Return (chars s)
  | VList l => Return l
  | VDict d => Return (VStr <$> (map_to_list d).*1)
  | _ => Raise (TypeError "object is not iterable")
  end.

(** [str(v)], as an f-string field applies it.  [repr] is Python's
    rendering of floats, lists and dictionaries. *)
Definition str (repr : value -> string) (v : value) : string :=
  match v with
  | VNone => "None"
  | VBool true => "True"
  | VBool false => "False"
  | VInt z => pretty z
  | VStr s => s
  | VFloat _ | VList _ | VDict _ => repr v
  end.

(** [sep.join(xs)]: every element has to be a [str]. *)
Definition as_str (v : value) : outcome string :=
  match v with
  | VStr s => Return s
  | _ => Raise (TypeError "sequence item: expected str instance")
  end.

Definition join (sep : string) (xs : list value) : outcome string :=
  obind (omapM as_str xs) (fun ss => Return (String.concat sep ss)).

(** [type(v).__name__]. *)
Definition type_name (v : value) : string :=
  match v with
  | VNone => "NoneType"
  | VBool _ => "bool"
  | VInt _ => "int"
  | VFloat _ => "float"
  | VStr _ => "str"
  | VList _ => "list"
  | VDict _ => "dict"
  end.

(** [len(v)]: strings, lists and dictionaries have a length, nothing else
    that JSON parses to has one. *)
Definition len (v : value) : outcome Z :=
  match v with
  | VStr s => Return (Z.of_nat (String.length s))
  | VList l => Return (Z.of_nat (length l))
  | VDict d => Return (Z.of_nat (size d))
  | _ => Raise (TypeError ("object of type '" +:+ type_name v +:+ "' has no len()"))
  end.

Definition nl : string := String (Ascii.ascii_of_nat 10) EmptyString.
Definition dquote : string := String (Ascii.ascii_of_nat 34) EmptyString.

(** [pathlib]'s [dir / name] for a relative [name]. *)
Definition path_join (dir name : string) : string := dir +:+ "/" +:+ name.

End Py.

Export Py.

Declare Scope py_scope.
Delimit Scope py_scope with py.
Notation "'let*' x ':=' m 'in' k" := (bind m (fun x => k))
  (at level 10, x name, m at level 100, k at level 200) : py_scope.
Notation "'let?' x ':=' m 'in' k" := (obind m (fun x => k))
  (at level 10, x name, m at level 100, k at level 200) : py_scope.
Infix "</>" := path_join (at level 40, left associativity) : py_scope.
Open Scope py_scope.

(* ===================================================================== *)
(** * models.py *)
(* ===================================================================== *)

Module Models.

Record EvalResult := {
  score : Q;
  details : gmap string value
}.

Record Run := {
  task_id : string;
  task : string;
  env_path : string;
  agent_answer_path : option string;
  source_answer_path : option string
}.

(** [EvalFunction = Callable[[Run], EvalResult]], over any state. *)
Definition EvalFunction (S : Type) : Type := Run -> M S EvalResult.

(** The decorator: [wrapper(r)] is [func(r)]. *)
Definition eval_function {S} (func : EvalFunction S) : EvalFunction S :=
  fun r => func r.

End Models.

Export Models.

(* ===================================================================== *)
(** * eval.py *)
(* ===================================================================== *)

Module Eval.

Record EvaluationResult := {
  pattern_recognition : Z;
  pattern_recognition_justification : string;
  specific_evidence : Z;
  specific_evidence_justification : string;
  root_cause_analysis : Z;
  root_cause_analysis_justification : string;
  actionable_insights : Z;
  actionable_insights_justification : string;
  total_score : Z;
  overall_assessment : string
}.

(** What [eval.py] runs against.
    - [eval_dir] is [Path(__file__).parent].
    - [fs] maps a path to what [read_text()] does on it; a path that is
      not in the map does not exist.
    - [evaluator k task_id source_answer agent_answer] is the outcome of
      the [k]-th call of [dspy.ChainOfThought(EvaluateGitQA)] in this
      process: any value of the output model, or an exception. *)
Record env := {
  eval_dir : string;
  fs : gmap string (outcome string);
  evaluator : nat -> string -> string -> string -> outcome EvaluationResult
}.

(** The state is the number of language-model calls made so far. *)
Abbreviation M := (Py.M nat).

Section WithEnv.
Variable E : env.

Definition get_source_answer (task_id : string) : outcome string :=
  let source_file :=
    eval_dir E </> "dataset_from_dspy" </> "source_answers" </> (task_id +:+ ".md") in
  match fs E !! source_file with
  | None => Return ("No source answer found for task " +:+ task_id)
  | Some read_text => read_text
  end.

Definition output_files : list string :=
  [ "answer.txt"; "analysis.md"; "response.txt"; "output.txt";
    "result.md"; "solution.txt"; "findings.txt"; "agent_output.txt" ].

Fixpoint first_output_file (env_path : string) (files : list string)
  : outcome string :=
  match files with
  | [] => Return "No agent answer file found. Agent may have provided answer in terminal output only."
  | filename :: rest =>
      match fs E !! (env_path </> filename) with
      | Some read_text => read_text
      | None => first_output_file env_path rest
      end
  end.

Definition get_agent_answer (run : Run) : outcome string :=
  let explicit :=
    match agent_answer_path run with
    | Some p => if String.eqb p EmptyString then None else fs E !! p
    | None => None
    end in
  match explicit with
  | Some read_text => read_text
  | None => first_output_file (env_path run) output_files
  end.

(** One call of the rubric-scoring capability. *)
Definition call_evaluator (task_id source_answer agent_answer : string)
  : M EvaluationResult :=
  fun k => (evaluator E k task_id source_answer agent_answer, S k).

Definition len (s : string) : value := VInt (Z.of_nat (String.length s)).

Definition success_details (task_id source_answer agent_answer : string)
    (evaluation_result : EvaluationResult) : gmap string value :=
  list_to_map
    [ ("pattern_recognition", VInt (pattern_recognition evaluation_result));
      ("pattern_recognition_justification",
         VStr (pattern_recognition_justification evaluation_result));
      ("specific_evidence", VInt (specific_evidence evaluation_result));
      ("specific_evidence_justification",
         VStr (specific_evidence_justification evaluation_result));
      ("root_cause_analysis", VInt (root_cause_analysis evaluation_result));
      ("root_cause_analysis_justification",
         VStr (root_cause_analysis_justification evaluation_result));
      ("actionable_insights", VInt (actionable_insights evaluation_result));
      ("actionable_insights_justification",
         VStr (actionable_insights_justification evaluation_result));
      ("total_score", VInt (total_score evaluation_result));
      ("overall_assessment", VStr (overall_assessment evaluation_result));
      ("source_answer_length", len source_answer);
      ("agent_answer_length", len agent_answer);
      ("task_id", VStr task_id) ].

Definition failure_details (task_id source_answer agent_answer : string)
    (e : exn) : gmap string value :=
  list_to_map
    [ ("error", VStr (exn_str e));
      ("task_id", VStr task_id);
      ("source_answer_length", len source_answer);
      ("agent_answer_length", len agent_answer) ].

(** The function under the decorator.  The two answers are resolved
    before the [try]; only the scoring is inside it. *)
Definition evaluate_git_qa_func (run : Run) : M EvalResult :=
  let task_id := task_id run in
  let* source_answer := lift (get_source_answer task_id) in
  let* agent_answer := lift (get_agent_answer run) in
  try_except
    (let* evaluation_result := call_evaluator task_id source_answer agent_answer in
     let normalized_score := (inject_Z (total_score evaluation_result) / 100)%Q in
     ret {| score := normalized_score;
            details := success_details task_id source_answer agent_answer
                         evaluation_result |})
    (fun e =>
     ret {| score := 0%Q;
            details := failure_details task_id source_answer agent_answer e |}).

Definition evaluate_git_qa : EvalFunction nat :=
  eval_function evaluate_git_qa_func.

(** A task of the manifest [questions.json]. *)
Record task_data := { td_task_id : string; td_task : string }.

Definition evaluate_task (t : task_data) (env_path agent_answer_path : option string)
  : M EvalResult :=
  let run :=
    {| task_id := td_task_id t;
       task := td_task t;
       env_path := str_or env_path ("./envs/" +:+ td_task_id t);
       agent_answer_path := agent_answer_path;
       source_answer_path := None |} in
  evaluate_git_qa run.

(** An element of [results] in [main]: one of two dictionary shapes,
    [{"task_id", "score", "details"}] or [{"task_id", "score", "error"}]. *)
Inductive result_entry :=
| Scored (task_id : string) (score : Q) (details : gmap string value)
| Errored (task_id : string) (score : Q) (error : string).

(** ["error" in r] *)
Definition has_error (r : result_entry) : bool :=
  match r with Errored _ _ _ => true | Scored _ _ _ => false end.

(** [r["score"]] *)
Definition entry_score (r : result_entry) : Q :=
  match r with Errored _ s _ => s | Scored _ s _ => s end.

Definition entry_task_id (r : result_entry) : string :=
  match r with Errored t _ _ => t | Scored t _ _ => t end.

(** The [for task_data in tasks] loop of the sweep. *)
Fixpoint sweep_loop (env_path : option string) (tasks : list task_data)
    (results : list result_entry) : M (list result_entry) :=
  match tasks with
  | [] => ret results
  | t :: rest =>
      let* entry :=
        try_except
          (let* result := evaluate_task t env_path None in
           ret (Scored (td_task_id t) (score result) (details result)))
          (fun e => ret (Errored (td_task_id t) 0%Q (exn_str e))) in
      sweep_loop env_path rest (results ++ [entry])
  end.

(** Python's [sum] over floats. *)
Definition sum (xs : list Q) : Q := fold_left Qplus xs 0%Q.

Record summary := {
  average_score : Q;
  tasks_evaluated : nat;
  total_tasks : nat
}.

Definition summarize (tasks : list task_data) (results : list result_entry)
  : summary :=
  let valid_scores := map entry_score (filter (fun r => has_error r = false) results) in
  let avg_score :=
    match valid_scores with
    | [] => 0%Q
    | _ => (sum valid_scores / inject_Z (Z.of_nat (length valid_scores)))%Q
    end in
  {| average_score := avg_score;
     tasks_evaluated := length valid_scores;
     total_tasks := length tasks |}.

Record args := {
  arg_task_id : option string;
  arg_env_path : option string;
  arg_agent_answer : option string
}.

(** What [main] reports (and writes to [--output]). *)
Inductive report :=
| TaskNotFound
| TaskReport (task_id : string) (score : Q) (details : gmap string value)
| SweepReport (s : summary) (results : list result_entry).

(** [main], given the parsed arguments and the loaded manifest. *)
Definition main (a : args) (tasks : list task_data) : M report :=
  match arg_task_id a with
  | Some wanted =>
      if String.eqb wanted EmptyString then
        let* results := sweep_loop (arg_env_path a) tasks [] in
        ret (SweepReport (summarize tasks results) results)
      else
        match List.find (fun t => String.eqb (td_task_id t) wanted) tasks with
        | None => ret TaskNotFound
        | Some t =>
            let* result := evaluate_task t (arg_env_path a) (arg_agent_answer a) in
            ret (TaskReport wanted (score result) (details result))
        end
  | None =>
      let* results := sweep_loop (arg_env_path a) tasks [] in
      ret (SweepReport (summarize tasks results) results)
  end.

End WithEnv.

End Eval.

(* ===================================================================== *)
(** * generate.py *)
(* ===================================================================== *)

Module Generate.

(** ** Fetching from the GitHub API *)

Inductive request :=
| GetListing (owner repo data_type : string) (page : nat)
| GetIssueComments (owner repo : string) (item_number : value)
| GetReviewComments (owner repo : string) (item_number : value).

(** A response: [status_code], the array [response.json()] parses to, and
    the [X-RateLimit-Remaining] header when there is one. *)
Record response (A : Type) := {
  status_code : Z;
  json : list A;
  ratelimit_remaining : option Z
}.
Arguments status_code {A} r.
Arguments json {A} r.
Arguments ratelimit_remaining {A} r.

(** The remote API.  An answer may depend on every request sent before
    (quota, new items, outages), so both endpoints see the history. *)
Record server := {
  listing : list request -> request -> response (gmap string value);
  comments : list request -> request -> response value
}.

(** What is stored at a path: a file [json.load] parses, or something on
    which [open] or [json.load] raises. *)
Inductive file :=
| JsonFile (data : value)
| BadFile (e : exn).

(** The state [fetch_github_data] works on: the files, and the requests
    sent so far, oldest first. *)
Record world := {
  files : gmap string file;
  requests : list request
}.

Definition items_value (items : list (gmap string value)) : value :=
  VList (VDict <$> items).

(** [json.dump(all_items, f)] on [save_path], opened for writing. *)
Definition write_json (save_path : string) (all_items : list (gmap string value))
    (w : world) : world :=
  {| files := <[save_path := JsonFile (items_value all_items)]> (files w);
     requests := requests w |}.

Inductive loop_ctl := Break | Continue.

Section WithServer.
Variable srv : server.

Definition requests_get_listing (r : request) (w : world)
  : response (gmap string value) * world :=
  (listing srv (requests w) r,
   {| files := files w; requests := requests w ++ [r] |}).

Definition requests_get_comments (r : request) (w : world)
  : response value * world :=
  (comments srv (requests w) r,
   {| files := files w; requests := requests w ++ [r] |}).

Definition fetch_comments (owner repo item_type : string) (item_number : value)
    (w : world) : list value * world :=
  if String.eqb item_type "pulls" then
    let '(response, w) := requests_get_comments (GetIssueComments owner repo item_number) w in
    let all_comments := if (status_code response =? 200)%Z then json response else [] in
    let '(response, w) := requests_get_comments (GetReviewComments owner repo item_number) w in
    let all_comments :=
      if (status_code response =? 200)%Z then all_comments ++ json response
      else all_comments in
    (all_comments, w)
  else
    let '(response, w) := requests_get_comments (GetIssueComments owner repo item_number) w in
    if (status_code response =? 200)%Z then (json response, w) else ([], w).

(** [for item in items: ... item['comments'] = comments]. *)
Fixpoint attach_comments (owner repo data_type : string)
    (items : list (gmap string value)) (w : world)
  : list (gmap string value) * world :=
  match items with
  | [] => ([], w)
  | item :: rest =>
      let item_number := default_or_lookup item "number" VNone in
      if truthy item_number then
        let '(comments, w) := fetch_comments owner repo data_type item_number w in
        let '(rest, w) := attach_comments owner repo data_type rest w in
        (<["comments" := VList comments]> item :: rest, w)
      else
        let '(rest, w) := attach_comments owner repo data_type rest w in
        (item :: rest, w)
  end.

(** One pass through the body of [while True]. *)
Definition page_iteration (owner repo data_type save_path : string)
    (fetch_comments_flag : bool) (page : nat)
    (all_items : list (gmap string value)) (w : world)
  : loop_ctl * list (gmap string value) * world :=
  let '(response, w) := requests_get_listing (GetListing owner repo data_type page) w in
  if negb (status_code response =? 200)%Z then (Break, all_items, w)
  else
    let items := json response in
    match items with
    | [] => (Break, all_items, w)
    | _ =>
        let '(items, w) :=
          if fetch_comments_flag then attach_comments owner repo data_type items w
          else (items, w) in
        let all_items := all_items ++ items in
        let w := write_json save_path all_items w in
        match ratelimit_remaining response with
        | Some remaining =>
            if (remaining <? 10)%Z then (Break, all_items, w)
            else (Continue, all_items, w)
        | None => (Continue, all_items, w)
        end
    end.

(** The [while True] loop; [None] when [fuel] passes do not end it. *)
Fixpoint paging_loop (fuel : nat) (owner repo data_type save_path : string)
    (fetch_comments_flag : bool) (page : nat)
    (all_items : list (gmap string value)) (w : world)
  : option (list (gmap string value) * world) :=
  match fuel with
  | O => None
  | S fuel =>
      match page_iteration owner repo data_type save_path fetch_comments_flag
              page all_items w with
      | (Break, all_items, w) => Some (all_items, w)
      | (Continue, all_items, w) =>
          paging_loop fuel owner repo data_type save_path fetch_comments_flag
            (S page) all_items w
      end
  end.

Definition fetch_github_data (fuel : nat) (owner repo data_type save_path : string)
    (fetch_comments_flag : bool) (w : world) : option (outcome value * world) :=
  match files w !! save_path with
  | Some (JsonFile existing_data) =>
      (* the message printed here is formatted with [len(existing_data)] *)
      Some (let? _ := Py.len existing_data in Return existing_data, w)
  | Some (BadFile e) => Some (Raise e, w)
  | None =>
      match paging_loop fuel owner repo data_type save_path fetch_comments_flag
              1 [] w with
      | Some (all_items, w) => Some (Return (items_value all_items), w)
      | None => None
      end
  end.

End WithServer.

(** ** Rendering items as context *)

Section WithRepr.
Variable repr : value -> string.

(** The f-string of one comment. *)
Definition comment_xml (author created_at body : string) : string :=
  "    <comment>" +:+ nl +:+
  "      <author>" +:+ author +:+ "</author>" +:+ nl +:+
  "      <created_at>" +:+ created_at +:+ "</created_at>" +:+ nl +:+
  "      <body>" +:+ body +:+ "</body>" +:+ nl +:+
  "    </comment>" +:+ nl.

Definition format_comment (comment : value) : outcome string :=
  let? user := get comment "user" (VDict ∅) in
  let? login := get user "login" (VStr "unknown") in
  let? created_at := get comment "created_at" (VStr "unknown") in
  let? body := get comment "body" (VStr "No content") in
  let? body := slice body 500 in
  Return (comment_xml (str repr login) (str repr created_at) (str repr body)).

(** [for comment in ...: comments_xml += f"..."]. *)
Fixpoint for_comments (comments : list value) (comments_xml : string)
  : outcome string :=
  match comments with
  | [] => Return comments_xml
  | comment :: rest =>
      let? piece := format_comment comment in
      for_comments rest (comments_xml +:+ piece)
  end.

(** The [comments_xml] block, which both formatters build the same way. *)
Definition comments_xml (item : gmap string value) : outcome string :=
  match item !! "comments" with
  | Some comments =>
      if truthy comments then
        let? first := slice comments 10 in
        let? first := iter first in
        let? comments_xml := for_comments first (nl +:+ "  <comments>" +:+ nl) in
        Return (comments_xml +:+ "  </comments>")
      else Return EmptyString
  | None => Return EmptyString
  end.

Definition pull_request_xml (number title state author created_at updated_at
    merged body comments_xml : string) : string :=
  "<pull_request number=" +:+ dquote +:+ number +:+ dquote +:+ ">" +:+ nl +:+
  "  <title>" +:+ title +:+ "</title>" +:+ nl +:+
  "  <state>" +:+ state +:+ "</state>" +:+ nl +:+
  "  <author>" +:+ author +:+ "</author>" +:+ nl +:+
  "  <created_at>" +:+ created_at +:+ "</created_at>" +:+ nl +:+
  "  <updated_at>" +:+ updated_at +:+ "</updated_at>" +:+ nl +:+
  "  <merged>" +:+ merged +:+ "</merged>" +:+ nl +:+
  "  <body>" +:+ body +:+ "</body>" +:+ comments_xml +:+ nl +:+
  "</pull_request>".

Definition format_pr_as_xml (pr : gmap string value) : outcome string :=
  let? comments_xml := comments_xml pr in
  let number := default_or_lookup pr "number" (VStr "N/A") in
  let title := default_or_lookup pr "title" (VStr "No title") in
  let state := default_or_lookup pr "state" (VStr "unknown") in
  let? author := get (default_or_lookup pr "user" (VDict ∅)) "login" (VStr "unknown") in
  let created_at := default_or_lookup pr "created_at" (VStr "unknown") in
  let updated_at := default_or_lookup pr "updated_at" (VStr "unknown") in
  let merged := default_or_lookup pr "merged" (VBool false) in
  let body := default_or_lookup pr "body" (VStr "No description") in
  Return (pull_request_xml (str repr number) (str repr title) (str repr state)
            (str repr author) (str repr created_at) (str repr updated_at)
            (str repr merged) (str repr body) comments_xml).

Definition issue_xml (number title state author created_at updated_at
    labels body comments_xml : string) : string :=
  "<issue number=" +:+ dquote +:+ number +:+ dquote +:+ ">" +:+ nl +:+
  "  <title>" +:+ title +:+ "</title>" +:+ nl +:+
  "  <state>" +:+ state +:+ "</state>" +:+ nl +:+
  "  <author>" +:+ author +:+ "</author>" +:+ nl +:+
  "  <created_at>" +:+ created_at +:+ "</created_at>" +:+ nl +:+
  "  <updated_at>" +:+ updated_at +:+ "</updated_at>" +:+ nl +:+
  "  <labels>" +:+ labels +:+ "</labels>" +:+ nl +:+
  "  <body>" +:+ body +:+ "</body>" +:+ comments_xml +:+ nl +:+
  "</issue>".

Definition format_issue_as_xml (issue : gmap string value) : outcome string :=
  match issue !! "pull_request" with
  | Some _ => Return EmptyString
  | None =>
      let? comments_xml := comments_xml issue in
      let number := default_or_lookup issue "number" (VStr "N/A") in
      let title := default_or_lookup issue "title" (VStr "No title") in
      let state := default_or_lookup issue "state" (VStr "unknown") in
      let? author :=
        get (default_or_lookup issue "user" (VDict ∅)) "login" (VStr "unknown") in
      let created_at := default_or_lookup issue "created_at" (VStr "unknown") in
      let updated_at := default_or_lookup issue "updated_at" (VStr "unknown") in
      let? labels := iter (default_or_lookup issue "labels" (VList [])) in
      let? names := omapM (fun label => subscript label "name") labels in
      let? labels := join ", " names in
      let body := default_or_lookup issue "body" (VStr "No description") in
      Return (issue_xml (str repr number) (str repr title) (str repr state)
                (str repr author) (str repr created_at) (str repr updated_at)
                labels (str repr body) comments_xml)
  end.

(** ** Generating and deduplicating tasks *)

Record GitHubQATask := {
  qa_task_id : string;
  qa_task : string;
  qa_success_criteria : string
}.

(** The input fields of [GenerateGitHubQATasks]. *)
Record generator_input := {
  in_task_type : string;
  in_task_type_description : string;
  in_pull_requests : string;
  in_issues : string;
  in_examples : string;
  in_repo_name : string;
  in_num_tasks : Z
}.

(** The two structured-generation capabilities.  Each takes the number of
    language-model calls made before it, and returns the output fields
    ([tasks] and [reasoning]; [unique_tasks] and [removed_count]) or raises. *)
Record lm := {
  generator : nat -> generator_input -> outcome (list GitHubQATask * string);
  deduplicator : nat -> list GitHubQATask -> outcome (list GitHubQATask * Z)
}.

Definition examples_preamble : string :=
  String.concat nl
    [ "IMPORTANT: Success criteria should be attainable via referencing information available in a git repository:";
      "- Commit hashes, commit messages, commit authors, commit dates";
      "- File changes, file paths, code modifications";
      "- Branch names, tags, merge commits";
      "- Git log output, git blame information";
      EmptyString;
      "Do NOT reference:";
      "- PR numbers or PR titles";
      "- Issue numbers or issue descriptions";
      "- GitHub comments or reviews";
      EmptyString;
      "Do NOT include explicit git commits, branches, or tags in the success criteria. ";
      EmptyString;
      "Examples:";
      EmptyString ].

(** [f"Example {i+1}:..." for i, ex in enumerate(examples)]. *)
Fixpoint format_examples (i : nat) (examples : list (gmap string value))
  : outcome (list string) :=
  match examples with
  | [] => Return []
  | ex :: rest =>
      let? ex_task_id := subscript (VDict ex) "task_id" in
      let? ex_task := subscript (VDict ex) "task" in
      let? more := format_examples (S i) rest in
      Return (("Example " +:+ pretty (S i) +:+ ":" +:+ nl +:+
               "- Task ID: " +:+ str repr ex_task_id +:+ nl +:+
               "- Task: " +:+ str repr ex_task) :: more)
  end.

Section WithLM.
Variable L : lm.

Definition call_generator (i : generator_input)
  : M nat (list GitHubQATask * string) :=
  fun k => (generator L k i, S k).

Definition call_deduplicator (tasks : list GitHubQATask)
  : M nat (list GitHubQATask * Z) :=
  fun k => (deduplicator L k tasks, S k).

Definition task_record (repo_name : string) (task : GitHubQATask)
  : gmap string value :=
  list_to_map
    [ ("task_id", VStr (qa_task_id task));
      ("task", VStr (qa_task task));
      ("success_criteria", VStr (qa_success_criteria task));
      ("dir_name", VStr ("github_qa/" +:+ repo_name)) ].

(** The inputs of the generation call, as the lines before the [try]
    compute them: the rendered context and the example text. *)
Definition generation_inputs (task_type task_description : string)
    (prs issues examples : list (gmap string value)) (repo_name : string)
    (num_tasks : Z) : outcome generator_input :=
  let? pr_xmls := omapM format_pr_as_xml (take 30 prs) in
  let pr_xml := String.concat nl pr_xmls in
  let? issue_xmls := omapM format_issue_as_xml (take 30 issues) in
  let issue_xml :=
    String.concat nl
      (List.filter (fun xml => negb (String.eqb xml EmptyString)) issue_xmls) in
  let? example_lines := format_examples 0 examples in
  let examples_text := examples_preamble +:+ String.concat nl example_lines in
  Return {| in_task_type := task_type;
            in_task_type_description := task_description;
            in_pull_requests := pr_xml;
            in_issues := issue_xml;
            in_examples := examples_text;
            in_repo_name := repo_name;
            in_num_tasks := num_tasks |}.

(** The generation call, the deduplication call and the conversion of the
    tasks are all inside one [try]. *)
Definition generate_tasks_for_type (task_type task_description : string)
    (prs issues examples : list (gmap string value)) (repo_name : string)
    (num_tasks : Z) : M nat (list (gmap string value)) :=
  let* inputs :=
    lift (generation_inputs task_type task_description prs issues examples
            repo_name num_tasks) in
  try_except
    (let* result := call_generator inputs in
     let* dedup_result := call_deduplicator (fst result) in
     ret (task_record repo_name <$> fst dedup_result))
    (fun e => ret []).

End WithLM.

End WithRepr.

End Generate.

(* ===================================================================== *)
(** * Python string methods *)
(* ===================================================================== *)

Module PyStr.

(** [s.lstrip(c)], [s.rstrip(c)] and [s.strip(c)] for a one-character [c]. *)
Fixpoint lstrip (c : Ascii.ascii) (s : string) : string :=
  match s with
  | EmptyString => EmptyString
  | String a rest => if Ascii.eqb a c then lstrip c rest else s
  end.

Fixpoint rstrip (c : Ascii.ascii) (s : string) : string :=
  match s with
  | EmptyString => EmptyString
  | String a rest =>
      match rstrip c rest with
      | EmptyString => if Ascii.eqb a c then EmptyString else String a EmptyString
      | kept => String a kept
      end
  end.

Definition strip (c : Ascii.ascii) (s : string) : string := rstrip c (lstrip c s).

(** [s.split(c)] for a one-character separator: every occurrence splits,
    and empty parts are kept. *)
Fixpoint split (c : Ascii.ascii) (s : string) : list string :=
  match s with
  | EmptyString => [EmptyString]
  | String a rest =>
      if Ascii.eqb a c then EmptyString :: split c rest
      else match split c rest with
           | part :: parts => String a part :: parts
           | [] => [String a EmptyString]
           end
  end.

(** [s.endswith(suffix)] *)
Definition endswith (s suffix : string) : bool :=
  let n := String.length s in
  let m := String.length suffix in
  (m <=? n) && String.eqb (substring (n - m) m s) suffix.

(** [s[:-n]] for a positive [n]. *)
Definition drop_last (n : nat) (s : string) : string :=
  substring 0 (String.length s - n) s.

(** [needle in hay] on strings. *)
Fixpoint contains (needle hay : string) : bool :=
  String.prefix needle hay
  || match hay with
     | EmptyString => false
     | String _ rest => contains needle rest
     end.

Definition slash : Ascii.ascii := Ascii.ascii_of_nat 47.

End PyStr.

(* ===================================================================== *)
(** * generate.py: the repository URL and the run over the task types *)
(* ===================================================================== *)

Module GenerateMain.
Import PyStr Generate.

Definition ValueError (msg : string) : exn := Exception "ValueError" msg.

(** [parse_github_url].  [urlparse_path url] is [urlparse(url).path] of the
    standard library, which may raise on a malformed URL. *)
Definition parse_github_url (urlparse_path : string -> outcome string)
    (url : string) : outcome (string * string) :=
  let url := if endswith url ".git" then drop_last 4 url else url in
  let? path := urlparse_path url in
  let path_parts := split slash (strip slash path) in
  match path_parts with
  | owner :: repo :: _ => Return (owner, repo)
  | _ => Raise (ValueError ("Invalid GitHub URL: " +:+ url))
  end.

(** The task types of [main], in the order of the dictionary. *)
Definition task_types : list (string * string) :=
  [ ("bug_patterns",
     "Tests pattern recognition across multiple issues and commits. Agents must identify recurring problems, root causes, and solutions by analyzing commit history and issue patterns.");
    ("timeline_questions",
     "Tests timeline understanding and evolution tracking. Agents must trace how features developed over time, including challenges, phases, and implementation details from git history.");
    ("system_interactions",
     "Tests understanding of how different code components affect each other. Agents must explain design rationale and system architecture decisions by analyzing code relationships.");
    ("people_process",
     "Tests expertise mapping from contribution patterns. Agents must identify the right people for tasks based on actual commit patterns and areas of expertise.");
    ("performance_evolution",
     "Tests understanding of optimization attempts and outcomes. Agents must track what approaches were tried, what worked, what failed, and why.") ].

(** [needle in v] for a string [needle]: a substring of a string, an
    element of a list, a key of a dictionary. *)
Definition str_in (needle : string) (v : value) : outcome bool :=
  match v with
  | VStr s => Return (contains needle s)
  | VList l =>
      Return (existsb (fun x => match x with
                                | VStr s => String.eqb s needle
                                | _ => false
                                end) l)
  | VDict d => Return (match d !! needle with Some _ => true | None => false end)
  | _ => Raise (TypeError "argument is not iterable")
  end.

(** [[ex for ex in examples if task_type in ex['task_id']]] *)
Fixpoint type_examples (task_type : string) (examples : list (gmap string value))
  : outcome (list (gmap string value)) :=
  match examples with
  | [] => Return []
  | ex :: rest =>
      let? ex_task_id := subscript (VDict ex) "task_id" in
      let? hit := str_in task_type ex_task_id in
      let? more := type_examples task_type rest in
      Return (if hit then ex :: more else more)
  end.

Section WithCapabilities.
Variable repr : value -> string.
Variable L : lm.

(** Step 5 of [main]: the loop over the task types, which extends
    [all_tasks] with the tasks of each type. *)
Fixpoint for_task_types (types : list (string * string))
    (prs issues examples : list (gmap string value)) (repo_name : string)
    (num_tasks : Z) (all_tasks : list (gmap string value))
  : M nat (list (gmap string value)) :=
  match types with
  | [] => ret all_tasks
  | (task_type, description) :: rest =>
      let* matching := lift (type_examples task_type examples) in
      let* tasks :=
        generate_tasks_for_type repr L task_type description prs issues
          (match matching with [] => examples | _ => matching end)
          repo_name num_tasks in
      for_task_types rest prs issues examples repo_name num_tasks (all_tasks ++ tasks)
  end.

Definition generate_all_tasks (prs issues examples : list (gmap string value))
    (repo_name : string) (num_tasks : Z) : M nat (list (gmap string value)) :=
  for_task_types task_types prs issues examples repo_name num_tasks [].

End WithCapabilities.

End GenerateMain.

(* ===================================================================== *)
(** * Properties stated about the programs *)
(* ===================================================================== *)

Module Props.
Import Eval Generate.

(** The contract of the rubric, read off a [details] dictionary: the four
    dimension scores and the total are there, the total is their sum and
    lies in [0,100]. *)
Definition rubric_invariant (d : gmap string value) : Prop :=
  exists p s r a t : Z,
    d !! "pattern_recognition" = Some (VInt p) /\
    d !! "specific_evidence" = Some (VInt s) /\
    d !! "root_cause_analysis" = Some (VInt r) /\
    d !! "actionable_insights" = Some (VInt a) /\
    d !! "total_score" = Some (VInt t) /\
    t = (p + s + r + a)%Z /\ (0 <= t <= 100)%Z.

Definition dimension_sum (r : EvaluationResult) : Z :=
  (pattern_recognition r + specific_evidence r
   + root_cause_analysis r + actionable_insights r)%Z.

(** An output of the capability that follows the rubric instructions. *)
Definition follows_rubric (r : EvaluationResult) : Prop :=
  (0 <= pattern_recognition r <= 25)%Z /\
  (0 <= specific_evidence r <= 25)%Z /\
  (0 <= root_cause_analysis r <= 25)%Z /\
  (0 <= actionable_insights r <= 25)%Z /\
  total_score r = dimension_sum r.

(** The outcome of [evaluate_task] on each task of a sweep, in list order,
    with the call counter threaded from one task to the next. *)
Fixpoint task_outcomes (E : env) (env_path : option string)
    (tasks : list task_data) (k : nat) : list (outcome EvalResult) * nat :=
  match tasks with
  | [] => ([], k)
  | t :: rest =>
      let '(o, k) := evaluate_task E t env_path None k in
      let '(os, k) := task_outcomes E env_path rest k in
      (o :: os, k)
  end.

(** The entry a sweep is to record for one task. *)
Definition entry_of (t : task_data) (o : outcome EvalResult) : result_entry :=
  match o with
  | Return r => Scored (td_task_id t) (score r) (details r)
  | Raise e => Errored (td_task_id t) 0%Q (exn_str e)
  end.

(** The scores of the tasks whose evaluation returned. *)
Definition returned_scores (os : list (outcome EvalResult)) : list Q :=
  omap (fun o => match o with Return r => Some (score r) | Raise _ => None end) os.

(** The sum of the numbers of a list. *)
Fixpoint total (xs : list Q) : Q :=
  match xs with
  | [] => 0%Q
  | x :: rest => (x + total rest)%Q
  end.

(** The arithmetic mean of a list of numbers; 0 stands in for the mean of
    no number. *)
Definition mean (xs : list Q) : Q :=
  match xs with
  | [] => 0%Q
  | _ => (total xs / inject_Z (Z.of_nat (length xs)))%Q
  end.

(** A parsed JSON value that has a length: an array, an object or a
    string, and no number, boolean or null. *)
Definition sized (data : value) : Prop :=
  match data with
  | VStr _ | VList _ | VDict _ => True
  | VNone | VBool _ | VInt _ | VFloat _ => False
  end.

(** [pages_fetched n (page, all_items, w) (page', all_items', w')]: from
    the loop state on the left, [n] passes through the body of the paging
    loop each ran to its end and went round again, and left the loop in
    the state on the right. *)
Inductive pages_fetched (srv : server) (owner repo data_type save_path : string)
    (fetch_comments_flag : bool)
  : nat -> nat * list (gmap string value) * world ->
    nat * list (gmap string value) * world -> Prop :=
| fetched_none st :
    pages_fetched srv owner repo data_type save_path fetch_comments_flag 0 st st
| fetched_more n page all_items w all_items' w' st :
    page_iteration srv owner repo data_type save_path fetch_comments_flag
      page all_items w = (Continue, all_items', w') ->
    pages_fetched srv owner repo data_type save_path fetch_comments_flag
      n (S page, all_items', w') st ->
    pages_fetched srv owner repo data_type save_path fetch_comments_flag
      (S n) (page, all_items, w) st.





(** The body of a comment is text, or is left out. *)
Definition has_text_body (comment : value) : Prop :=
  match comment with
  | VDict d =>
      match d !! "body" with
      | Some (VStr _) | None => True
      | Some _ => False
      end
  | _ => True
  end.





(** The [user] of an item or of a comment is an object, or is left out. *)
Definition has_user_object (d : gmap string value) : Prop :=
  match d !! "user" with
  | Some (VDict _) | None => True
  | Some _ => False
  end.

(** A comment as the API delivers it: an object, with a user object and a
    text body, either of which may be missing. *)
Definition api_comment (comment : value) : Prop :=
  exists d, comment = VDict d /\ has_user_object d /\ has_text_body comment.

Definition api_label (label : value) : Prop :=
  exists d name, label = VDict d /\ d !! "name" = Some (VStr name).

(** An item as the API delivers it and the fetch stores it: a user object,
    a list of labels, and under ["comments"] the thread, or a value that
    counts as false (a count of zero), or nothing. *)
Definition api_item (item : gmap string value) : Prop :=
  has_user_object item /\
  match item !! "comments" with
  | Some (VList comments) => Forall api_comment comments
  | Some v => truthy v = false
  | None => True
  end /\
  match item !! "labels" with
  | Some (VList labels) => Forall api_label labels
  | Some _ => False
  | None => True
  end.

End Props.

(* ===================================================================== *)
(** * Further properties *)
(* ===================================================================== *)

Module MoreProps.
Import Eval Generate Props PyStr GenerateMain.

(** No candidate answer can be resolved for a run: no explicit path that
    exists, and none of the conventional files in the environment. *)
Definition no_candidate_file (E : env) (run : Run) : Prop :=
  match agent_answer_path run with
  | Some p => p = EmptyString \/ fs E !! p = None
  | None => True
  end /\
  Forall (fun name => fs E !! (env_path run </> name) = None) output_files.

(** The explicit path of a run does not resolve. *)
Definition no_explicit_answer (E : env) (run : Run) : Prop :=
  match agent_answer_path run with
  | Some p => p = EmptyString \/ fs E !! p = None
  | None => True
  end.

Definition in_unit_interval (q : Q) : Prop := (0 <= q /\ q <= 1)%Q.

Definition errored_entries (results : list result_entry) : list result_entry :=
  List.filter has_error results.

(** A request to a listing endpoint, as opposed to a comments endpoint. *)
Definition is_listing (r : request) : bool :=
  match r with
  | GetListing _ _ _ _ => true
  | GetIssueComments _ _ _ | GetReviewComments _ _ _ => false
  end.

(** The listing requests for [m] consecutive pages from [page] on. *)
Definition listing_pages (owner repo data_type : string) (page m : nat)
  : list request :=
  GetListing owner repo data_type <$> seq page m.

(** The item carries a number that counts as true. *)
Definition numbered (item : gmap string value) : bool :=
  truthy (default_or_lookup item "number" VNone).

(** The number of comment requests that fetching the items [added]
    takes: none when comments are skipped, else one for each numbered
    item, and two for each when the items are pull requests. *)
Definition comment_requests (fetch_comments_flag : bool) (data_type : string)
    (added : list (gmap string value)) : nat :=
  if fetch_comments_flag
  then (if String.eqb data_type "pulls" then 2 else 1)
       * length (List.filter numbered added)
  else 0.

(** A listing response after which the paging loop does not go round
    again: no success, or no items, or a quota below the floor. *)
Definition stops_paging (r : response (gmap string value)) : Prop :=
  status_code r <> 200%Z \/ json r = [] \/
  exists remaining, ratelimit_remaining r = Some remaining /\ (remaining < 10)%Z.

(** A listing response after which the paging loop goes round again. *)
Definition keeps_paging (r : response (gmap string value)) : Prop :=
  status_code r = 200%Z /\ json r <> [] /\
  forall remaining, ratelimit_remaining r = Some remaining -> (10 <= remaining)%Z.

(** A comment cut to what a formatter reads of it: a text body keeps its
    first 500 characters. *)
Definition clip_body (comment : value) : value :=
  match comment with
  | VDict d =>
      match d !! "body" with
      | Some (VStr s) => VDict (<["body" := VStr (substring 0 500 s)]> d)
      | _ => comment
      end
  | _ => comment
  end.

(** An item cut to what a formatter reads of it: of a list of comments, the
    first ten, each with its body cut. *)
Definition clip_item (item : gmap string value) : gmap string value :=
  match item !! "comments" with
  | Some (VList comments) =>
      <["comments" := VList (clip_body <$> take 10 comments)]> item
  | _ => item
  end.

(** The item is a pull request in the eyes of the issue formatter. *)
Definition is_pull_request (item : gmap string value) : bool :=
  match item !! "pull_request" with
  | Some _ => true
  | None => false
  end.

(** The character occurs in the string. *)
Fixpoint occurs (c : Ascii.ascii) (s : string) : bool :=
  match s with
  | EmptyString => false
  | String a rest => Ascii.eqb a c || occurs c rest
  end.

(** A path segment: not empty, and without a slash. *)
Definition segment (s : string) : Prop :=
  s <> EmptyString /\ occurs slash s = false.

(** The URL as [parse_github_url] hands it to [urlparse]. *)
Definition without_git_suffix (url : string) : string :=
  if endswith url ".git" then drop_last 4 url else url.

(** An example as the loop over the task types needs it: a text
    ["task_id"] and a ["task"]. *)
Definition usable_example (ex : gmap string value) : Prop :=
  (exists id, ex !! "task_id" = Some (VStr id)) /\ is_Some (ex !! "task").

(** A task record carries the directory name of the repository. *)
Definition tagged (repo_name : string) (record : gmap string value) : Prop :=
  record !! "dir_name" = Some (VStr ("github_qa/" +:+ repo_name)).

(** The run that [evaluate_task] builds for a task. *)
Definition task_run (t : task_data) (env_path agent_answer_path : option string)
  : Run :=
  {| task_id := td_task_id t;
     task := td_task t;
     env_path := str_or env_path ("./envs/" +:+ td_task_id t);
     agent_answer_path := agent_answer_path;
     source_answer_path := None |}.

(** The item is one that some listing response carries. *)
Definition delivered (srv : server) (owner repo data_type : string)
    (item : gmap string value) : Prop :=
  exists history page,
    item ∈ json (listing srv history (GetListing owner repo data_type page)).

End MoreProps.

(* ===================================================================== *)
(** * Concrete runs *)
(* ===================================================================== *)

Module Fixtures.
Import Eval Generate.

Definition run_crash : Run :=
  {| task_id := "teleprompter_crash";
     task := "Which recurring failure affects the teleprompters?";
     env_path := "./envs/teleprompter_crash";
     agent_answer_path := None;
     source_answer_path := None |}.

Definition reference_path : string :=
  "/bench/dataset_from_dspy/source_answers/teleprompter_crash.md".

Definition good_files : gmap string (outcome string) :=
  <[ reference_path := Return "Crashes recur in the bootstrap loop." ]>
  (<[ "./envs/teleprompter_crash/answer.txt" := Return "The bootstrap loop crashes." ]> ∅).

Definition verdict (p s r a t : Z) : EvaluationResult :=
  {| pattern_recognition := p;
     pattern_recognition_justification := "patterns";
     specific_evidence := s;
     specific_evidence_justification := "evidence";
     root_cause_analysis := r;
     root_cause_analysis_justification := "causes";
     actionable_insights := a;
     actionable_insights_justification := "insights";
     total_score := t;
     overall_assessment := "assessment" |}.

(** The capability answers within the rubric. *)
Definition E_fair : env :=
  {| eval_dir := "/bench";
     fs := good_files;
     evaluator := fun _ _ _ _ => Return (verdict 20 15 15 10 60) |}.

(** The capability returns a total that is neither the sum of its four
    scores nor at most 100. *)
Definition E_inflated : env :=
  {| eval_dir := "/bench";
     fs := good_files;
     evaluator := fun _ _ _ _ => Return (verdict 25 20 15 10 150) |}.

Definition quota_error : exn := Exception "RuntimeError" "quota exceeded".

(** The capability raises. *)
Definition E_no_quota : env :=
  {| eval_dir := "/bench";
     fs := good_files;
     evaluator := fun _ _ _ _ => Raise quota_error |}.

Definition decode_error : exn :=
  Exception "UnicodeDecodeError" "'utf-8' codec can't decode byte 0xff in position 0".

(** The reference answer exists but [read_text()] raises on it. *)
Definition E_unreadable : env :=
  {| eval_dir := "/bench";
     fs := <[ reference_path := Raise decode_error ]> good_files;
     evaluator := fun _ _ _ _ => Return (verdict 20 15 15 10 60) |}.

(** A sweep of three tasks: the first is scored, the reference answer of
    the second cannot be read, and the scoring call for the third raises. *)
Definition sweep_tasks : list task_data :=
  [ {| td_task_id := "teleprompter_crash"; td_task := "Which failure recurs?" |};
    {| td_task_id := "cache_races"; td_task := "Which races hit the cache?" |};
    {| td_task_id := "typed_predictors"; td_task := "How did typing evolve?" |} ].

Definition E_sweep : env :=
  {| eval_dir := "/bench";
     fs := <[ "/bench/dataset_from_dspy/source_answers/cache_races.md" := Raise decode_error ]>
           good_files;
     evaluator := fun k _ _ _ =>
       match k with
       | O => Return (verdict 20 15 15 10 60)
       | _ => Raise quota_error
       end |}.

Definition sweep_args : args :=
  {| arg_task_id := None; arg_env_path := None; arg_agent_answer := None |}.

(** GitHub items. *)
Definition gh_item (number : Z) (title : string) : gmap string value :=
  list_to_map [ ("number", VInt number); ("title", VStr title) ].

Definition gh_comment (login body : string) : value :=
  VDict (list_to_map
           [ ("user", VDict (list_to_map [ ("login", VStr login) ]));
             ("created_at", VStr "2024-05-01T10:00:00Z");
             ("body", VStr body) ]).

Definition ok {A} (items : list A) (remaining : Z) : response A :=
  {| status_code := 200; json := items; ratelimit_remaining := Some remaining |}.

Definition failed {A} (status : Z) : response A :=
  {| status_code := status; json := []; ratelimit_remaining := None |}.

(** Two pages of issues are served, then the listing answers 502. *)
Definition srv_outage : server :=
  {| listing := fun _ r =>
       match r with
       | GetListing _ _ _ 1 => ok [ gh_item 12 "Cache race"; gh_item 11 "Crash on load" ] 50
       | GetListing _ _ _ 2 => ok [ gh_item 10 "Typo in docs" ] 40
       | _ => failed 502
       end;
     comments := fun _ r =>
       match r with
       | GetIssueComments _ _ (VInt 12) => ok [ gh_comment "ada" "Seen on main too." ] 45
       | _ => ok [] 45
       end |}.

(** The quota is nearly used up after the first page; more pages exist. *)
Definition srv_low_quota : server :=
  {| listing := fun _ r =>
       match r with
       | GetListing _ _ _ 1 => ok [ gh_item 12 "Cache race"; gh_item 11 "Crash on load" ] 9
       | _ => ok [ gh_item 10 "Typo in docs" ] 8
       end;
     comments := fun _ _ => ok [] 9 |}.

Definition cache_path : string := "tasks/github_qa/dspy/issue.json".

Definition w_fresh : world := {| files := ∅; requests := [] |}.

Definition cached_items : list (gmap string value) :=
  [ gh_item 12 "Cache race"; gh_item 11 "Crash on load" ].

Definition w_cached : world :=
  {| files := {[ cache_path := JsonFile (items_value cached_items) ]};
     requests := [] |}.

(** A cache file that holds the JSON number 42, and one cut off in the
    middle of a write. *)
Definition w_number_cache : world :=
  {| files := {[ cache_path := JsonFile (VInt 42) ]}; requests := [] |}.

Definition json_decode_error : exn :=
  Exception "JSONDecodeError" "Expecting ',' delimiter: line 1 column 4097 (char 4096)".

Definition w_truncated_cache : world :=
  {| files := {[ cache_path := BadFile json_decode_error ]}; requests := [] |}.

(** A stand-in for Python's [repr]. *)
Definition repr0 : value -> string := fun _ => "<repr>".

Fixpoint repeat_string (n : nat) (s : string) : string :=
  match n with
  | O => EmptyString
  | S n => s +:+ repeat_string n s
  end.

(** A pull request with twelve comments of 600 characters each. *)
Definition long_thread : gmap string value :=
  <[ "comments" :=
       VList ((fun _ => gh_comment "ada" (repeat_string 600 "x")) <$> seq 0 12) ]>
    (gh_item 7 "Rework the cache").



Definition qa_flaky : GitHubQATask :=
  {| qa_task_id := "bug_patterns_flaky_cache";
     qa_task := "Which commits address the flaky cache?";
     qa_success_criteria := "Names the locking change and the retry removal." |}.

Definition example_task : gmap string value :=
  list_to_map [ ("task_id", VStr "bug_patterns_teleprompter_crash");
                ("task", VStr "Which recurring failure affects the teleprompters?") ].

(** The generator answers; the deduplicator raises. *)
Definition L_dedup_fails : lm :=
  {| generator := fun _ _ => Return ([qa_flaky; qa_flaky], "two tasks");
     deduplicator := fun _ _ => Raise quota_error |}.

(** The generator raises. *)
Definition L_generator_fails : lm :=
  {| generator := fun _ _ => Raise quota_error;
     deduplicator := fun _ tasks => Return (tasks, 0%Z) |}.

(** An issue as the listing endpoint delivers it, and as the fetch stores
    it when comments are skipped: ["comments"] is the number of comments. *)
Definition counted_issue : gmap string value :=
  <[ "comments" := VInt 3 ]> (gh_item 11 "Crash on load").

End Fixtures.

(* ===================================================================== *)
(** * Further concrete runs *)
(* ===================================================================== *)

Module MoreFixtures.
Import Eval Generate Fixtures.

(** An environment with two conventional answer files, neither of them the
    first of the list, and an answer file outside it. *)
Definition E_two_answers : env :=
  {| eval_dir := "/bench";
     fs := <[ "./envs/teleprompter_crash/output.txt" := Return "From output.txt." ]>
           (<[ "./envs/teleprompter_crash/analysis.md" := Return "From analysis.md." ]>
            (<[ "/home/agent/final.md" := Return "From the named file." ]> ∅));
     evaluator := fun _ _ _ _ => Return (verdict 20 15 15 10 60) |}.

Definition run_named : Run :=
  {| task_id := "teleprompter_crash";
     task := "Which recurring failure affects the teleprompters?";
     env_path := "./envs/teleprompter_crash";
     agent_answer_path := Some "/home/agent/final.md";
     source_answer_path := None |}.

Definition run_named_missing : Run :=
  {| task_id := "teleprompter_crash";
     task := "Which recurring failure affects the teleprompters?";
     env_path := "./envs/teleprompter_crash";
     agent_answer_path := Some "/home/agent/lost.md";
     source_answer_path := None |}.

(** No file at all. *)
Definition E_empty : env :=
  {| eval_dir := "/bench";
     fs := ∅;
     evaluator := fun _ _ _ _ => Return (verdict 0 0 0 0 0) |}.

Definition single_args : args :=
  {| arg_task_id := Some "cache_races"; arg_env_path := None;
     arg_agent_answer := None |}.

Definition unknown_args : args :=
  {| arg_task_id := Some "no_such_task"; arg_env_path := None;
     arg_agent_answer := None |}.

(** Every page has an item, and the quota never runs low. *)
Definition srv_endless : server :=
  {| listing := fun _ r =>
       match r with
       | GetListing _ _ _ page => ok [ gh_item (Z.of_nat page) "One more" ] 5000
       | _ => failed 404
       end;
     comments := fun _ _ => ok [] 5000 |}.

(** A stand-in for [urlparse(url).path] on URLs of github.com: what follows
    the eighteen characters of the scheme and the host. *)
Definition path_after_host (url : string) : outcome string :=
  Return (substring 18 (String.length url - 18) url).

(** A pull request as the issue listing delivers it. *)
Definition pr_among_issues : gmap string value :=
  <[ "pull_request" := VDict ∅ ]> (gh_item 40 "Rework the cache").

(** Thirty pull requests ahead of one issue. *)
Definition crowded_issues : list (gmap string value) :=
  replicate 30 pr_among_issues ++ [ gh_item 11 "Crash on load" ].

End MoreFixtures.

(* ===================================================================== *)
(** * Theorems: models.py and eval.py *)
(* ===================================================================== *)

Module EvalTheorems.
Import Eval Props Fixtures.

(** ** The evaluator, case by case *)

Lemma evaluate_git_qa_scored (E : env) (run : Run) (k : nat)
    (source_answer agent_answer : string) (r : EvaluationResult) :
  get_source_answer E (task_id run) = Return source_answer ->
  get_agent_answer E run = Return agent_answer ->
  evaluator E k (task_id run) source_answer agent_answer = Return r ->
  evaluate_git_qa E run k =
    (Return {| score := (inject_Z (total_score r) / 100)%Q;
               details := success_details (task_id run) source_answer agent_answer r |},
     S k).
Proof.
  intros Hs Ha Hr.
  unfold evaluate_git_qa, eval_function, evaluate_git_qa_func.
  unfold bind, lift, try_except, call_evaluator, ret.
  rewrite Hs, Ha, Hr. reflexivity.
Qed.

Lemma evaluate_git_qa_failed (E : env) (run : Run) (k : nat)
    (source_answer agent_answer : string) (e : exn) :
  get_source_answer E (task_id run) = Return source_answer ->
  get_agent_answer E run = Return agent_answer ->
  evaluator E k (task_id run) source_answer agent_answer = Raise e ->
  evaluate_git_qa E run k =
    (Return {| score := 0%Q;
               details := failure_details (task_id run) source_answer agent_answer e |},
     S k).
Proof.
  intros Hs Ha Hr.
  unfold evaluate_git_qa, eval_function, evaluate_git_qa_func.
  unfold bind, lift, try_except, call_evaluator, ret.
  rewrite Hs, Ha, Hr. reflexivity.
Qed.

Lemma evaluate_git_qa_source_raises (E : env) (run : Run) (k : nat) (e : exn) :
  get_source_answer E (task_id run) = Raise e ->
  evaluate_git_qa E run k = (Raise e, k).
Proof.
  intros Hs.
  unfold evaluate_git_qa, eval_function, evaluate_git_qa_func, bind, lift.
  rewrite Hs. reflexivity.
Qed.

Lemma evaluate_git_qa_agent_raises (E : env) (run : Run) (k : nat)
    (source_answer : string) (e : exn) :
  get_source_answer E (task_id run) = Return source_answer ->
  get_agent_answer E run = Raise e ->
  evaluate_git_qa E run k = (Raise e, k).
Proof.
  intros Hs Ha.
  unfold evaluate_git_qa, eval_function, evaluate_git_qa_func, bind, lift.
  rewrite Hs, Ha. reflexivity.
Qed.

Lemma success_details_rubric (task_id source_answer agent_answer : string)
    (r : EvaluationResult) :
  let d := success_details task_id source_answer agent_answer r in
  d !! "pattern_recognition" = Some (VInt (pattern_recognition r)) /\
  d !! "specific_evidence" = Some (VInt (specific_evidence r)) /\
  d !! "root_cause_analysis" = Some (VInt (root_cause_analysis r)) /\
  d !! "actionable_insights" = Some (VInt (actionable_insights r)) /\
  d !! "total_score" = Some (VInt (total_score r)) /\
  d !! "error" = None.
Proof. repeat split; reflexivity. Qed.

(** ** The decorator *)

(** C10.  The [eval_function] decorator preserves behaviour: for every
    function [f] from [Run] to [EvalResult] and every run [r],
    [eval_function(f)(r)] is [f(r)], the same result with the same effects. *)
Theorem eval_function_preserves_behaviour {S : Type} (f : EvalFunction S) (r : Run) :
  eval_function f r = f r.
Proof. reflexivity. Qed.

(** ** The rubric *)

(** C1, as the code has it.  Whatever the capability returns, the evaluator
    records its four dimension scores and its [total_score] unchanged and
    checks nothing.  So the recorded rubric has [total_score] equal to the
    sum of the four scores and within [0,100] exactly when the capability's
    output has, and in particular whenever that output follows the rubric
    (each score in [0,25], the total their sum). *)
Theorem rubric_recorded_as_returned (E : env) (run : Run) (k : nat)
    (source_answer agent_answer : string) (r : EvaluationResult) :
  get_source_answer E (task_id run) = Return source_answer ->
  get_agent_answer E run = Return agent_answer ->
  evaluator E k (task_id run) source_answer agent_answer = Return r ->
  exists res,
    evaluate_git_qa E run k = (Return res, S k) /\
    details res !! "pattern_recognition" = Some (VInt (pattern_recognition r)) /\
    details res !! "specific_evidence" = Some (VInt (specific_evidence r)) /\
    details res !! "root_cause_analysis" = Some (VInt (root_cause_analysis r)) /\
    details res !! "actionable_insights" = Some (VInt (actionable_insights r)) /\
    details res !! "total_score" = Some (VInt (total_score r)) /\
    (rubric_invariant (details res) <->
       total_score r = dimension_sum r /\ (0 <= total_score r <= 100)%Z) /\
    (follows_rubric r -> rubric_invariant (details res)).
Proof.
  intros Hs Ha Hr. eexists. split.
  { exact (evaluate_git_qa_scored E run k _ _ r Hs Ha Hr). }
  cbn [details].
  destruct (success_details_rubric (task_id run) source_answer agent_answer r)
    as (Hp & Hse & Hrc & Hai & Ht & _).
  assert (Hiff : rubric_invariant
                   (success_details (task_id run) source_answer agent_answer r) <->
                 total_score r = dimension_sum r /\ (0 <= total_score r <= 100)%Z).
  { unfold rubric_invariant, dimension_sum. split.
    - intros (p & s & rc & a & t & Hp' & Hs' & Hr' & Ha' & Ht' & Hsum & Hrange).
      rewrite Hp in Hp'. rewrite Hse in Hs'. rewrite Hrc in Hr'.
      rewrite Hai in Ha'. rewrite Ht in Ht'.
      injection Hp' as <-. injection Hs' as <-. injection Hr' as <-.
      injection Ha' as <-. injection Ht' as <-. auto.
    - intros [Hsum Hrange].
      exists (pattern_recognition r), (specific_evidence r),
             (root_cause_analysis r), (actionable_insights r), (total_score r).
      repeat split; auto; apply Hrange. }
  do 5 (split; [assumption |]). split; [exact Hiff |].
  intros (H1 & H2 & H3 & H4 & H5). apply Hiff.
  unfold dimension_sum in *. split; [assumption | lia].
Qed.

(** ** The normalised score *)

(** C2, as the code has it.  When the scoring call returns, the score is
    [total_score / 100] exactly; it lies in [0,1] if and only if the
    capability's [total_score] lies in [0,100], which nothing checks. *)
Theorem score_is_total_over_100 (E : env) (run : Run) (k : nat)
    (source_answer agent_answer : string) (r : EvaluationResult) :
  get_source_answer E (task_id run) = Return source_answer ->
  get_agent_answer E run = Return agent_answer ->
  evaluator E k (task_id run) source_answer agent_answer = Return r ->
  exists res,
    evaluate_git_qa E run k = (Return res, S k) /\
    score res = (inject_Z (total_score r) / 100)%Q /\
    (score res == total_score r # 100)%Q /\
    ((0 <= score res /\ score res <= 1)%Q <-> (0 <= total_score r <= 100)%Z).
Proof.
  intros Hs Ha Hr. eexists. split.
  { exact (evaluate_git_qa_scored E run k _ _ r Hs Ha Hr). }
  cbn [score]. split; [reflexivity |].
  unfold Qeq, Qle, Qdiv, Qmult, Qinv, inject_Z. cbn.
  split; [lia | split; intros [H0 H1]; split; lia].
Qed.

(** ** Failures *)

(** C3, as the code has it.  An exception raised by the scoring call is
    caught inside the evaluator, which returns a result with score 0.0 and
    an ["error"] detail holding the message.  An exception raised while an
    answer is resolved (reading the reference answer, or the candidate
    answer) is raised before the [try]: the evaluator propagates it to its
    caller, and the capability is not called. *)
Theorem evaluator_catches_scoring_failures_only (E : env) (run : Run) (k : nat) :
  (forall source_answer agent_answer e,
     get_source_answer E (task_id run) = Return source_answer ->
     get_agent_answer E run = Return agent_answer ->
     evaluator E k (task_id run) source_answer agent_answer = Raise e ->
     exists res,
       evaluate_git_qa E run k = (Return res, S k) /\
       score res = 0%Q /\
       details res !! "error" = Some (VStr (exn_str e)) /\
       details res !! "task_id" = Some (VStr (task_id run))) /\
  (forall e,
     get_source_answer E (task_id run) = Raise e ->
     evaluate_git_qa E run k = (Raise e, k)) /\
  (forall source_answer e,
     get_source_answer E (task_id run) = Return source_answer ->
     get_agent_answer E run = Raise e ->
     evaluate_git_qa E run k = (Raise e, k)).
Proof.
  split; [| split].
  - intros source_answer agent_answer e Hs Ha Hr. eexists. split.
    { exact (evaluate_git_qa_failed E run k _ _ e Hs Ha Hr). }
    repeat split; reflexivity.
  - intros e Hs. exact (evaluate_git_qa_source_raises E run k e Hs).
  - intros source_answer e Hs Ha.
    exact (evaluate_git_qa_agent_raises E run k source_answer e Hs Ha).
Qed.

(** ** The sweep *)

Lemma task_outcomes_length (E : env) (env_path : option string)
    (tasks : list task_data) (k : nat) :
  length (task_outcomes E env_path tasks k).1 = length tasks.
Proof.
  revert k. induction tasks as [| t rest IH]; intros k; [reflexivity |].
  cbn [task_outcomes].
  destruct (evaluate_task E t env_path None k) as [o k1].
  specialize (IH k1).
  destruct (task_outcomes E env_path rest k1) as [os k2].
  cbn in *. now rewrite IH.
Qed.

(** The loop appends, task after task, the entry of that task's outcome. *)
Lemma sweep_loop_outcomes (E : env) (env_path : option string)
    (tasks : list task_data) (results : list result_entry) (k : nat) :
  sweep_loop E env_path tasks results k =
    (Return (results ++ zip_with entry_of tasks (task_outcomes E env_path tasks k).1),
     (task_outcomes E env_path tasks k).2).
Proof.
  revert results k. induction tasks as [| t rest IH]; intros results k.
  - cbn. now rewrite app_nil_r.
  - cbn [sweep_loop task_outcomes]. unfold bind at 1. unfold try_except, bind, ret.
    destruct (evaluate_task E t env_path None k) as [[r | e] k1];
      rewrite IH;
      destruct (task_outcomes E env_path rest k1) as [os k2];
      cbn; now rewrite <- app_assoc.
Qed.

Lemma valid_scores_returned (tasks : list task_data) (os : list (outcome EvalResult)) :
  length os = length tasks ->
  map entry_score (filter (fun r => has_error r = false) (zip_with entry_of tasks os))
  = returned_scores os.
Proof.
  revert os. induction tasks as [| t rest IH]; intros [| o os] Hlen;
    try discriminate; [reflexivity |].
  cbn [zip_with]. rewrite filter_cons.
  injection Hlen as Hlen. specialize (IH os Hlen).
  destruct o as [r | e]; cbn; [| exact IH].
  destruct (decide (false = false)) as [_ | Hne]; [| now destruct Hne].
  cbn. now rewrite IH.
Qed.

(** Python's running sum is the sum of the list. *)
Lemma sum_is_total (xs : list Q) (acc : Q) :
  (fold_left Qplus xs acc == acc + total xs)%Q.
Proof.
  revert acc. induction xs as [| x xs IH]; intros acc; cbn [fold_left total].
  - now rewrite Qplus_0_r.
  - rewrite IH. now rewrite Qplus_assoc.
Qed.

Lemma summarize_mean (tasks : list task_data) (results : list result_entry) :
  (average_score (summarize tasks results)
   == mean (map entry_score (filter (fun r => has_error r = false) results)))%Q.
Proof.
  unfold summarize. cbn [average_score].
  destruct (map entry_score (filter (fun r => has_error r = false) results))
    as [| x xs]; [reflexivity |].
  unfold mean, sum. rewrite sum_is_total. now rewrite Qplus_0_l.
Qed.

(** C8.  In a sweep, an exception raised out of the evaluation of one task
    is caught for that task alone and recorded as an entry with score 0.0
    and the exception's message, and the sweep goes on.  The reported
    [average_score] is the arithmetic mean of the scores of the tasks whose
    evaluation did not raise (0.0 when there is none), [tasks_evaluated] is
    the number of those tasks, and [total_tasks] is the length of the list.
    A task whose evaluation returned is among them whatever its record
    holds, a record of a scoring failure with score 0.0 included. *)
Theorem sweep_mean_over_returned_tasks (E : env) (a : args)
    (tasks : list task_data) (k : nat) :
  arg_task_id a = None ->
  let os := (task_outcomes E (arg_env_path a) tasks k).1 in
  exists s results,
    main E a tasks k =
      (Return (SweepReport s results), (task_outcomes E (arg_env_path a) tasks k).2) /\
    (average_score s == mean (returned_scores os))%Q /\
    tasks_evaluated s = length (returned_scores os) /\
    total_tasks s = length tasks /\
    length results = length tasks /\
    (forall i t e,
       tasks !! i = Some t -> os !! i = Some (Raise e) ->
       results !! i = Some (Errored (td_task_id t) 0%Q (exn_str e))) /\
    (forall i t r,
       tasks !! i = Some t -> os !! i = Some (Return r) ->
       results !! i = Some (Scored (td_task_id t) (score r) (details r))).
Proof.
  intros Hid os.
  pose proof (task_outcomes_length E (arg_env_path a) tasks k) as Hlen.
  fold os in Hlen.
  exists (summarize tasks (zip_with entry_of tasks os)), (zip_with entry_of tasks os).
  split; [| split; [| split; [| split; [| split; [| split]]]]].
  - unfold main. rewrite Hid. unfold bind at 1.
    rewrite sweep_loop_outcomes. fold os. reflexivity.
  - rewrite summarize_mean. now rewrite (valid_scores_returned tasks os Hlen).
  - unfold summarize. cbn [tasks_evaluated].
    now rewrite (valid_scores_returned tasks os Hlen).
  - reflexivity.
  - rewrite length_zip_with. lia.
  - intros i t e Ht Ho. rewrite lookup_zip_with, Ht, Ho. reflexivity.
  - intros i t r Ht Ho. rewrite lookup_zip_with, Ht, Ho. reflexivity.
Qed.

(** ** The theorems at work on concrete runs *)

Lemma rubric_recorded_as_returned_witness :
  exists res,
    evaluate_git_qa E_fair run_crash 0 = (Return res, 1) /\
    details res !! "total_score" = Some (VInt 60) /\
    rubric_invariant (details res).
Proof.
  destruct (rubric_recorded_as_returned E_fair run_crash 0
              "Crashes recur in the bootstrap loop." "The bootstrap loop crashes."
              (verdict 20 15 15 10 60) eq_refl eq_refl eq_refl)
    as (res & Hrun & _ & _ & _ & _ & Htotal & _ & Hfollows).
  exists res. split; [exact Hrun |]. split; [exact Htotal |].
  apply Hfollows. unfold follows_rubric, dimension_sum. cbn. lia.
Defined.

(** C1 as stated fails: the capability may return a total of 150 next to
    scores that sum to 70, and the evaluator records it. *)
Lemma rubric_invariant_counterexample :
  exists res,
    evaluate_git_qa E_inflated run_crash 0 = (Return res, 1) /\
    details res !! "pattern_recognition" = Some (VInt 25) /\
    details res !! "specific_evidence" = Some (VInt 20) /\
    details res !! "root_cause_analysis" = Some (VInt 15) /\
    details res !! "actionable_insights" = Some (VInt 10) /\
    details res !! "total_score" = Some (VInt 150) /\
    ~ rubric_invariant (details res).
Proof.
  eexists. split; [reflexivity |]. do 5 (split; [reflexivity |]).
  intros (p & s & r & a & t & _ & _ & _ & _ & Ht & _ & Hrange).
  vm_compute in Ht. injection Ht as <-. lia.
Qed.

Lemma score_is_total_over_100_witness :
  exists res,
    evaluate_git_qa E_fair run_crash 0 = (Return res, 1) /\
    (score res == 3 # 5)%Q /\ (0 <= score res /\ score res <= 1)%Q.
Proof.
  destruct (score_is_total_over_100 E_fair run_crash 0
              "Crashes recur in the bootstrap loop." "The bootstrap loop crashes."
              (verdict 20 15 15 10 60) eq_refl eq_refl eq_refl)
    as (res & Hrun & _ & Heq & Hrange).
  exists res. split; [exact Hrun |]. split.
  - rewrite Heq. reflexivity.
  - apply Hrange. cbn. lia.
Defined.

(** C2 as stated fails: a returned total of 150 gives the score 3/2. *)
Lemma score_range_counterexample :
  exists res,
    evaluate_git_qa E_inflated run_crash 0 = (Return res, 1) /\
    (score res == 3 # 2)%Q /\ ~ (score res <= 1)%Q.
Proof.
  eexists. split; [reflexivity |]. split; [reflexivity |].
  cbn. unfold Qle. cbn. lia.
Qed.

Lemma evaluator_catches_scoring_failures_only_witness :
  (exists res,
     evaluate_git_qa E_no_quota run_crash 0 = (Return res, 1) /\
     score res = 0%Q /\
     details res !! "error" = Some (VStr "quota exceeded")) /\
  evaluate_git_qa E_unreadable run_crash 0 = (Raise decode_error, 0).
Proof.
  split.
  - destruct (evaluator_catches_scoring_failures_only E_no_quota run_crash 0)
      as (Hscoring & _ & _).
    destruct (Hscoring "Crashes recur in the bootstrap loop."
                "The bootstrap loop crashes." quota_error eq_refl eq_refl eq_refl)
      as (res & Hrun & Hscore & Herror & _).
    exists res. auto.
  - destruct (evaluator_catches_scoring_failures_only E_unreadable run_crash 0)
      as (_ & Hsource & _).
    apply Hsource. reflexivity.
Defined.

(** C3 as stated fails: when reading the reference answer raises, the
    evaluator raises too, and no result is returned. *)
Lemma resolution_failure_counterexample :
  evaluate_git_qa E_unreadable run_crash 0 = (Raise decode_error, 0) /\
  ~ (exists res, (evaluate_git_qa E_unreadable run_crash 0).1 = Return res).
Proof.
  assert (Hrun : evaluate_git_qa E_unreadable run_crash 0 = (Raise decode_error, 0))
    by reflexivity.
  split; [exact Hrun |]. intros [res H]. rewrite Hrun in H. discriminate H.
Qed.

Lemma sweep_mean_over_returned_tasks_witness :
  exists s results,
    main E_sweep sweep_args sweep_tasks 0 = (Return (SweepReport s results), 2) /\
    (average_score s == 3 # 10)%Q /\
    tasks_evaluated s = 2 /\
    total_tasks s = 3 /\
    results !! 1%nat
      = Some (Errored "cache_races" 0%Q
                "'utf-8' codec can't decode byte 0xff in position 0").
Proof.
  destruct (sweep_mean_over_returned_tasks E_sweep sweep_args sweep_tasks 0 eq_refl)
    as (s & results & Hmain & Hmean & Hevaluated & Htotal & _ & Herrored & _).
  exists s, results. split; [exact Hmain |].
  split; [refine (Qeq_trans _ _ (3 # 10) Hmean _); vm_compute; reflexivity |].
  split; [exact Hevaluated |]. split; [exact Htotal |].
  apply (Herrored 1%nat {| td_task_id := "cache_races";
                           td_task := "Which races hit the cache?" |} decode_error);
    reflexivity.
Defined.

(** C8 as stated fails: the scoring call for the third task raises, the
    evaluator swallows the failure and returns a record with score 0.0 and
    no ["error"] key of its own, and the sweep counts the task among the
    evaluated ones.  Two tasks are reported as evaluated where one was
    scored, and the average is (0.6 + 0) / 2 and not 0.6. *)
Example sweep_counts_swallowed_failures :
  (forall source_answer agent_answer,
     evaluator E_sweep 1 "typed_predictors" source_answer agent_answer
     = Raise quota_error) /\
  exists s results,
    main E_sweep sweep_args sweep_tasks 0 = (Return (SweepReport s results), 2) /\
    tasks_evaluated s = 2%nat /\ total_tasks s = 3%nat /\
    (average_score s == 3 # 10)%Q /\ ~ (average_score s == 3 # 5)%Q /\
    (exists d, results !! 2%nat = Some (Scored "typed_predictors" 0%Q d) /\
               d !! "error" = Some (VStr "quota exceeded")).
Proof.
  split; [reflexivity |].
  eexists _, _. split; [reflexivity |]. cbn.
  do 3 (split; [reflexivity |]). split; [discriminate |].
  eexists. split; reflexivity.
Qed.

End EvalTheorems.

(* ===================================================================== *)
(** * Theorems: generate.py, fetching *)
(* ===================================================================== *)

Module FetchTheorems.
Import Generate Props Fixtures.

Section Fetch.
Variable srv : server.
Variables owner repo data_type save_path : string.
Variable fetch_comments_flag : bool.

Local Abbreviation iteration := (page_iteration srv owner repo data_type save_path fetch_comments_flag).
Local Abbreviation loop fuel := (paging_loop srv fuel owner repo data_type save_path fetch_comments_flag).
Local Abbreviation fetched := (pages_fetched srv owner repo data_type save_path fetch_comments_flag).

(** Requests never touch the files. *)
Lemma fetch_comments_files (item_number : value) (w : world) :
  files (fetch_comments srv owner repo data_type item_number w).2 = files w.
Proof.
  unfold fetch_comments, requests_get_comments.
  destruct (String.eqb data_type "pulls"); cbn;
    repeat match goal with |- context [if ?b then _ else _] => destruct b end;
    reflexivity.
Qed.

Lemma attach_comments_files (items : list (gmap string value)) (w : world) :
  files (attach_comments srv owner repo data_type items w).2 = files w.
Proof.
  revert w. induction items as [| item rest IH]; intros w; [reflexivity |].
  cbn [attach_comments].
  destruct (truthy (default_or_lookup item "number" VNone)).
  - pose proof (fetch_comments_files (default_or_lookup item "number" VNone) w) as Hc.
    destruct (fetch_comments srv owner repo data_type _ w) as [cs w1].
    specialize (IH w1).
    destruct (attach_comments srv owner repo data_type rest w1) as [rest' w2].
    cbn in *. congruence.
  - specialize (IH w).
    destruct (attach_comments srv owner repo data_type rest w) as [rest' w2].
    exact IH.
Qed.

(** A listing response that is not a success ends the pass at once: the
    accumulated items are untouched, nothing is written, and the one
    request for that page is all that was sent. *)
Lemma iteration_on_failure (page : nat) (all_items : list (gmap string value))
    (w : world) :
  status_code (listing srv (requests w) (GetListing owner repo data_type page)) <> 200%Z ->
  iteration page all_items w =
    (Break, all_items,
     {| files := files w;
        requests := requests w ++ [GetListing owner repo data_type page] |}).
Proof.
  intros Hstatus. unfold page_iteration, requests_get_listing.
  destruct (Z.eqb_spec
              (status_code (listing srv (requests w) (GetListing owner repo data_type page)))
              200) as [Heq | _]; [contradiction | reflexivity].
Qed.

Lemma attach_comments_length (items : list (gmap string value)) (w : world) :
  length (attach_comments srv owner repo data_type items w).1 = length items.
Proof.
  revert w. induction items as [| item rest IH]; intros w; [reflexivity |].
  cbn [attach_comments].
  destruct (truthy (default_or_lookup item "number" VNone)).
  - destruct (fetch_comments srv owner repo data_type _ w) as [cs w1].
    specialize (IH w1).
    destruct (attach_comments srv owner repo data_type rest w1) as [rest' w2].
    cbn in *. now rewrite IH.
  - specialize (IH w).
    destruct (attach_comments srv owner repo data_type rest w) as [rest' w2].
    cbn in *. now rewrite IH.
Qed.

(** A pass that goes round again got a success, and has appended the items
    of its page, one for one, to those accumulated before. *)
Lemma iteration_accumulates (page : nat) (all_items all_items' : list (gmap string value))
    (w w' : world) :
  iteration page all_items w = (Continue, all_items', w') ->
  let response := listing srv (requests w) (GetListing owner repo data_type page) in
  status_code response = 200%Z /\
  exists items,
    all_items' = all_items ++ items /\
    length items = length (json response) /\
    (fetch_comments_flag = false -> items = json response).
Proof.
  unfold page_iteration, requests_get_listing.
  set (response := listing srv (requests w) (GetListing owner repo data_type page)).
  destruct (Z.eqb_spec (status_code response) 200) as [Hok | _]; [| discriminate].
  cbn [negb].
  destruct (json response) as [| item items] eqn:Hitems; [discriminate |].
  set (w1 := {| files := files w;
                requests := requests w ++ [GetListing owner repo data_type page] |}).
  intros H. cbn zeta. split; [exact Hok |].
  destruct fetch_comments_flag.
  - pose proof (attach_comments_length (item :: items) w1) as Hlen.
    destruct (attach_comments srv owner repo data_type (item :: items) w1)
      as [items' w2].
    exists items'. split; [| split; [exact Hlen | discriminate]].
    destruct (ratelimit_remaining response) as [remaining |];
      [destruct (remaining <? 10)%Z |];
      first [discriminate H | now inversion H].
  - exists (item :: items). split; [| split; [reflexivity | reflexivity]].
    destruct (ratelimit_remaining response) as [remaining |];
      [destruct (remaining <? 10)%Z |];
      first [discriminate H | now inversion H].
Qed.

(** What one pass leaves in the cache: either it broke off before adding
    anything and left the files alone, or it wrote all it has accumulated. *)
Lemma iteration_cache (page : nat) (all_items : list (gmap string value)) (w : world)
    (c : loop_ctl) (all_items' : list (gmap string value)) (w' : world) :
  iteration page all_items w = (c, all_items', w') ->
  (c = Break /\ all_items' = all_items /\ files w' = files w) \/
  files w' !! save_path = Some (JsonFile (items_value all_items')).
Proof.
  unfold page_iteration, requests_get_listing.
  set (response := listing srv (requests w) (GetListing owner repo data_type page)).
  destruct (negb (status_code response =? 200)%Z).
  { intros [= <- <- <-]. left. auto. }
  destruct (json response) as [| item items] eqn:Hitems.
  { intros [= <- <- <-]. left. auto. }
  set (w1 := {| files := files w;
                requests := requests w ++ [GetListing owner repo data_type page] |}).
  destruct (if fetch_comments_flag
            then attach_comments srv owner repo data_type (item :: items) w1
            else (item :: items, w1)) as [items' w2].
  intros H. right.
  assert (Hw : w' = write_json save_path all_items' w2 /\
               all_items' = all_items ++ items').
  { destruct (ratelimit_remaining response) as [remaining |];
      [destruct (remaining <? 10)%Z |]; injection H as _ <- <-; auto. }
  destruct Hw as [-> _]. cbn. apply lookup_insert_eq.
Qed.

Lemma loop_cache (fuel page : nat) (all_items : list (gmap string value)) (w : world)
    (result : list (gmap string value)) (w' : world) :
  loop fuel page all_items w = Some (result, w') ->
  (result = all_items /\ files w' = files w) \/
  files w' !! save_path = Some (JsonFile (items_value result)).
Proof.
  revert page all_items w.
  induction fuel as [| fuel IH]; intros page all_items w; [discriminate |].
  cbn [paging_loop].
  destruct (iteration page all_items w) as [[c all_items1] w1] eqn:Hit.
  pose proof (iteration_cache _ _ _ _ _ _ Hit) as Hcache.
  destruct c.
  - intros [= <- <-]. destruct Hcache as [(_ & -> & ->) | Hwritten]; auto.
  - intros Hloop. destruct (IH _ _ _ Hloop) as [[-> Hfiles] | Hwritten]; [| auto].
    destruct Hcache as [(Hc & _) | Hwritten]; [discriminate |].
    right. now rewrite Hfiles.
Qed.

(** Passes that went round again, followed by a pass that breaks off, are
    a run of the loop, whatever fuel is left over. *)
Lemma loop_after_fetched (n fuel : nat)
    (st st' : nat * list (gmap string value) * world)
    (result : list (gmap string value)) (w' : world) :
  fetched n st st' ->
  iteration st'.1.1 st'.1.2 st'.2 = (Break, result, w') ->
  n < fuel ->
  loop fuel st.1.1 st.1.2 st.2 = Some (result, w').
Proof.
  intros Hfetched. revert fuel.
  induction Hfetched as [st | n page all_items w all_items1 w1 st Hit _ IH];
    intros fuel Hbreak Hfuel.
  - destruct fuel as [| fuel]; [lia |]. cbn [paging_loop]. now rewrite Hbreak.
  - destruct fuel as [| fuel]; [lia |]. cbn [paging_loop fst snd]. rewrite Hit.
    apply (IH fuel Hbreak). lia.
Qed.

Lemma fetched_page (n : nat) (st st' : nat * list (gmap string value) * world) :
  fetched n st st' -> st'.1.1 = n + st.1.1.
Proof.
  induction 1 as [st | n page all_items w all_items1 w1 st _ _ IH]; [reflexivity |].
  cbn in *. lia.
Qed.

(** C6.  Let [n] pages have been fetched, leaving [all_items] accumulated.
    If the listing request for the next page gets a response that is not a
    success, the fetch ends there with any fuel above [n]: it returns
    exactly [all_items], it has sent that one request for the failed page
    and none after it, and it has written nothing more. *)
Theorem fetch_stops_at_failed_listing (fuel n page : nat)
    (all_items : list (gmap string value)) (w0 w : world) :
  files w0 !! save_path = None ->
  fetched n (1, [], w0) (page, all_items, w) ->
  status_code (listing srv (requests w) (GetListing owner repo data_type page)) <> 200%Z ->
  n < fuel ->
  page = S n /\
  fetch_github_data srv fuel owner repo data_type save_path fetch_comments_flag w0 =
    Some (Return (items_value all_items),
          {| files := files w;
             requests := requests w ++ [GetListing owner repo data_type page] |}).
Proof.
  intros Hnone Hfetched Hstatus Hfuel. split.
  { apply fetched_page in Hfetched. cbn in Hfetched. lia. }
  unfold fetch_github_data. rewrite Hnone.
  pose proof (loop_after_fetched n fuel _ _ _ _ Hfetched
                (iteration_on_failure page all_items w Hstatus) Hfuel) as Hloop.
  cbn [fst snd] in Hloop. rewrite Hloop. reflexivity.
Qed.

End Fetch.

(** C5.  When the cache file exists and holds an item sequence, the fetch
    returns exactly that sequence and leaves the world as it was: no
    request is sent and no file is written.  This needs no fuel, as the
    paging loop is not entered. *)
Theorem fetch_returns_existing_cache (srv : server) (fuel : nat)
    (owner repo data_type save_path : string) (fetch_comments_flag : bool)
    (w : world) (items : list (gmap string value)) :
  files w !! save_path = Some (JsonFile (items_value items)) ->
  exists w',
    fetch_github_data srv fuel owner repo data_type save_path fetch_comments_flag w
      = Some (Return (items_value items), w') /\
    requests w' = requests w /\ files w' = files w.
Proof.
  intros Hcache. exists w. unfold fetch_github_data. rewrite Hcache.
  split; [reflexivity | auto].
Qed.

(** C9.  Whatever is stored at the cache path decides the fetch, and the
    server is not asked: with a file there, the fetch ends without a
    request and without a write.  A file that parses to a value with a
    length (an array, as every cache the fetch wrote itself, an object or a
    string) is returned as parsed, whether or not it is a full result
    set.  A file that parses to a number, a boolean or [null] makes the
    fetch raise a [TypeError], and a file that does not parse makes it
    raise what the parser raised.  In particular, when an earlier fetch
    that found no cache returned some items, however it came to stop,
    every later fetch of that path returns the same items without a
    request, whatever the server would answer by then. *)
Theorem fetch_never_resumes (srv : server) (fuel : nat)
    (owner repo data_type save_path : string) (fetch_comments_flag : bool)
    (w : world) :
  (forall stored,
     files w !! save_path = Some stored ->
     exists o,
       fetch_github_data srv fuel owner repo data_type save_path fetch_comments_flag w
       = Some (o, w)) /\
  (forall data,
     files w !! save_path = Some (JsonFile data) ->
     sized data ->
     fetch_github_data srv fuel owner repo data_type save_path fetch_comments_flag w
       = Some (Return data, w)) /\
  (forall data,
     files w !! save_path = Some (JsonFile data) ->
     ~ sized data ->
     exists e,
       fetch_github_data srv fuel owner repo data_type save_path fetch_comments_flag w
       = Some (Raise e, w) /\
       exn_class e = "TypeError") /\
  (forall e,
     files w !! save_path = Some (BadFile e) ->
     fetch_github_data srv fuel owner repo data_type save_path fetch_comments_flag w
       = Some (Raise e, w)) /\
  (forall srv0 fuel0 flag0 w0 data,
     files w0 !! save_path = None ->
     fetch_github_data srv0 fuel0 owner repo data_type save_path flag0 w0
       = Some (Return data, w) ->
     data <> items_value [] ->
     fetch_github_data srv fuel owner repo data_type save_path fetch_comments_flag w
       = Some (Return data, w)).
Proof.
  assert (Hhit : forall data,
            files w !! save_path = Some (JsonFile data) ->
            sized data ->
            fetch_github_data srv fuel owner repo data_type save_path
              fetch_comments_flag w = Some (Return data, w)).
  { intros data Hcache Hsized. unfold fetch_github_data. rewrite Hcache.
    destruct data; try contradiction; reflexivity. }
  split; [| split; [exact Hhit | split; [| split]]].
  - intros stored Hcache. unfold fetch_github_data. rewrite Hcache.
    destruct stored; eauto.
  - intros data Hcache Hunsized. unfold fetch_github_data. rewrite Hcache.
    destruct data; cbn in Hunsized; try (now destruct Hunsized);
      eexists; split; reflexivity.
  - intros e Hcache. unfold fetch_github_data. now rewrite Hcache.
  - intros srv0 fuel0 flag0 w0 data Hnone Hfirst Hsome.
    unfold fetch_github_data in Hfirst. rewrite Hnone in Hfirst.
    destruct (paging_loop srv0 fuel0 owner repo data_type save_path flag0 1 [] w0)
      as [[all_items w1] |] eqn:Hloop; [| discriminate].
    injection Hfirst as <- <-.
    destruct (loop_cache srv0 owner repo data_type save_path flag0 _ _ _ _ _ _ Hloop)
      as [[-> _] | Hwritten];
      [contradiction | exact (Hhit _ Hwritten I)].
Qed.

(** ** The theorems at work on concrete runs *)

Lemma fetch_stops_at_failed_listing_witness :
  exists all_items w',
    fetch_github_data srv_outage 5 "stanfordnlp" "dspy" "issues" cache_path true w_fresh
      = Some (Return (items_value all_items), w') /\
    (fun item => default_or_lookup item "number" VNone) <$> all_items
      = [VInt 12; VInt 11; VInt 10] /\
    List.filter (fun r => match r with GetListing _ _ _ _ => true | _ => false end)
      (requests w')
      = [ GetListing "stanfordnlp" "dspy" "issues" 1;
          GetListing "stanfordnlp" "dspy" "issues" 2;
          GetListing "stanfordnlp" "dspy" "issues" 3 ].
Proof.
  eexists _, _. split.
  - refine (proj2 (fetch_stops_at_failed_listing srv_outage "stanfordnlp" "dspy"
                     "issues" cache_path true 5 2 3 _ w_fresh _ eq_refl _ _ _)).
    + eapply fetched_more; [reflexivity |].
      eapply fetched_more; [reflexivity |]. apply fetched_none.
    + cbn. discriminate.
    + lia.
  - split; reflexivity.
Defined.

Lemma fetch_returns_existing_cache_witness :
  exists w',
    fetch_github_data srv_outage 0 "stanfordnlp" "dspy" "issues" cache_path true w_cached
      = Some (Return (items_value cached_items), w') /\
    requests w' = [] /\ files w' = files w_cached.
Proof.
  apply (fetch_returns_existing_cache srv_outage 0 "stanfordnlp" "dspy" "issues"
           cache_path true w_cached cached_items).
  reflexivity.
Defined.

(** A first fetch stops after one page because the quota is low; a second
    fetch, against a server that has more to give, returns that one page. *)
Lemma fetch_never_resumes_witness :
  exists w1,
    fetch_github_data srv_low_quota 5 "stanfordnlp" "dspy" "issues" cache_path false w_fresh
      = Some (Return (items_value cached_items), w1) /\
    fetch_github_data srv_outage 5 "stanfordnlp" "dspy" "issues" cache_path true w1
      = Some (Return (items_value cached_items), w1) /\
    requests w1 = [ GetListing "stanfordnlp" "dspy" "issues" 1 ].
Proof.
  eexists. split; [reflexivity |]. split; [| reflexivity].
  refine (proj2 (proj2 (proj2 (proj2
            (fetch_never_resumes srv_outage 5 "stanfordnlp" "dspy" "issues"
               cache_path true _))))
            srv_low_quota 5 false w_fresh _ eq_refl eq_refl _).
  cbn. discriminate.
Defined.

(** C9 as stated fails: not every file at the cache path is returned as
    parsed.  A file that holds the number 42 parses, and the fetch raises
    on taking its length; a file cut off in the middle of a write does not
    parse, and the fetch raises what the parser raised.  Neither fetch
    returns, and neither sends a request. *)
Lemma cache_file_not_returned_counterexample :
  fetch_github_data srv_outage 5 "stanfordnlp" "dspy" "issues" cache_path true
    w_number_cache
  = Some (Raise (TypeError "object of type 'int' has no len()"), w_number_cache) /\
  fetch_github_data srv_outage 5 "stanfordnlp" "dspy" "issues" cache_path true
    w_truncated_cache
  = Some (Raise json_decode_error, w_truncated_cache).
Proof. split; reflexivity. Qed.

End FetchTheorems.

(* ===================================================================== *)
(** * Theorems: generate.py, context and generation *)
(* ===================================================================== *)

Module GenerateTheorems.
Import Generate Props Fixtures.

Lemma append_assoc (s1 s2 s3 : string) : (s1 +:+ s2) +:+ s3 = s1 +:+ (s2 +:+ s3).
Proof.
  induction s1 as [| c s1 IH]; [reflexivity |].
  change (String c ((s1 +:+ s2) +:+ s3) = String c (s1 +:+ (s2 +:+ s3))).
  now rewrite IH.
Qed.

Lemma append_empty_r (s : string) : s +:+ EmptyString = s.
Proof.
  induction s as [| c s IH]; [reflexivity |].
  change (String c (s +:+ EmptyString) = String c s). now rewrite IH.
Qed.


Section Rendering.
Variable repr : value -> string.





Lemma for_comments_returns (comments : list value) (acc : string) :
  Forall api_comment comments ->
  exists out, for_comments repr comments acc = Return out.
Proof.
  intros Hall. revert acc.
  induction Hall as [| comment rest (d & -> & Huser & Hbody) _ IH]; intros acc.
  - now exists acc.
  - cbn [for_comments]. unfold format_comment. cbn [get obind].
    unfold has_user_object in Huser. unfold has_text_body in Hbody.
    unfold default_or_lookup at 1.
    destruct (d !! "user") as [[| | | | | | user] |]; try contradiction;
      cbn [get obind]; unfold default_or_lookup at 1;
      destruct (d !! "body") as [[| | | | s | |] |]; try contradiction;
      cbn [slice obind]; apply IH.
Qed.

Lemma comments_xml_returns (item : gmap string value) :
  api_item item -> exists out, comments_xml repr item = Return out.
Proof.
  intros (_ & Hcomments & _). unfold comments_xml.
  destruct (item !! "comments") as [comments |]; [| now eexists].
  destruct comments as [| | | | | comments |];
    try (rewrite Hcomments; now eexists).
  destruct (truthy (VList comments)); [| now eexists].
  cbn [slice obind iter].
  destruct (for_comments_returns (take 10 comments) (nl +:+ "  <comments>" +:+ nl)
              (Forall_take _ _ _ Hcomments)) as [block ->].
  now eexists.
Qed.


Lemma label_names_returns (labels : list value) :
  Forall api_label labels ->
  exists names,
    omapM (fun label => subscript label "name") labels = Return (VStr <$> names).
Proof.
  induction 1 as [| label rest (d & name & -> & Hname) _ (names & IH)].
  - now exists [].
  - exists (name :: names). cbn [omapM subscript]. rewrite Hname. cbn [obind].
    rewrite IH. reflexivity.
Qed.

Lemma join_strings (sep : string) (names : list string) :
  join sep (VStr <$> names) = Return (String.concat sep names).
Proof.
  unfold join.
  assert (Hnames : omapM as_str (VStr <$> names) = Return names).
  { induction names as [| name names IH]; [reflexivity |].
    cbn [fmap list_fmap omapM as_str obind]. cbn [fmap] in IH. now rewrite IH. }
  now rewrite Hnames.
Qed.








End Rendering.

(** ** Generation and deduplication *)

(** C4, as the code has it.  The generation call and the deduplication call
    stand in one [try].  A failure raised by either capability is
    swallowed there: the function returns the empty task list and raises
    nothing, and after a generation failure the deduplicator is not called. *)
Theorem generation_failures_swallowed_alike (repr : value -> string) (L : lm)
    (task_type task_description : string)
    (prs issues examples : list (gmap string value)) (repo_name : string)
    (num_tasks : Z) (k : nat) (inputs : generator_input) :
  generation_inputs repr task_type task_description prs issues examples
    repo_name num_tasks = Return inputs ->
  (forall e,
     generator L k inputs = Raise e ->
     generate_tasks_for_type repr L task_type task_description prs issues examples
       repo_name num_tasks k = (Return [], S k)) /\
  (forall tasks reasoning e,
     generator L k inputs = Return (tasks, reasoning) ->
     deduplicator L (S k) tasks = Raise e ->
     generate_tasks_for_type repr L task_type task_description prs issues examples
       repo_name num_tasks k = (Return [], S (S k))) /\
  (forall tasks reasoning unique_tasks removed_count,
     generator L k inputs = Return (tasks, reasoning) ->
     deduplicator L (S k) tasks = Return (unique_tasks, removed_count) ->
     generate_tasks_for_type repr L task_type task_description prs issues examples
       repo_name num_tasks k
     = (Return (task_record repo_name <$> unique_tasks), S (S k))).
Proof.
  intros Hinputs.
  unfold generate_tasks_for_type, bind, lift, try_except, call_generator,
    call_deduplicator, ret.
  rewrite Hinputs. repeat split.
  - intros e ->. reflexivity.
  - intros tasks reasoning e -> . cbn [fst]. intros ->. reflexivity.
  - intros tasks reasoning unique_tasks removed_count ->. cbn [fst].
    intros ->. reflexivity.
Qed.

(** ** The theorems at work on concrete runs *)

Lemma long_thread_is_api_item : api_item long_thread.
Proof.
  split; [exact I | split; [| exact I]].
  change (Forall api_comment
            ((fun _ => gh_comment "ada" (repeat_string 600 "x")) <$> seq 0 12)).
  apply Forall_fmap, Forall_forall. intros i _.
  eexists. split; [reflexivity |]. split; exact I.
Qed.



(** An item whose ["comments"] is a positive count is not an item with a
    thread: slicing the count raises, and no block is rendered. *)
Example format_issue_with_comment_count :
  format_issue_as_xml repr0 counted_issue
  = Raise (TypeError "object is not subscriptable").
Proof. reflexivity. Qed.

Lemma generation_failures_swallowed_alike_witness :
  generate_tasks_for_type repr0 L_generator_fails "bug_patterns" "Recurring problems."
    [long_thread] [gh_item 11 "Crash on load"] [example_task] "dspy" 10 0
    = (Return [], 1) /\
  generate_tasks_for_type repr0 L_dedup_fails "bug_patterns" "Recurring problems."
    [long_thread] [gh_item 11 "Crash on load"] [example_task] "dspy" 10 0
    = (Return [], 2).
Proof.
  split.
  - edestruct (generation_failures_swallowed_alike repr0 L_generator_fails
                 "bug_patterns" "Recurring problems."
                 [long_thread] [gh_item 11 "Crash on load"] [example_task] "dspy" 10 0)
      as (Hgen & _ & _); [reflexivity |].
    apply (Hgen quota_error). reflexivity.
  - edestruct (generation_failures_swallowed_alike repr0 L_dedup_fails
                 "bug_patterns" "Recurring problems."
                 [long_thread] [gh_item 11 "Crash on load"] [example_task] "dspy" 10 0)
      as (_ & Hdedup & _); [reflexivity |].
    apply (Hdedup [qa_flaky; qa_flaky] "two tasks" quota_error); reflexivity.
Defined.

(** C4 as stated fails: the deduplication capability raises, and the
    function that called it returns the empty list; nothing is raised. *)
Lemma deduplication_failure_counterexample :
  deduplicator L_dedup_fails 1 [qa_flaky; qa_flaky] = Raise quota_error /\
  generate_tasks_for_type repr0 L_dedup_fails "bug_patterns" "Recurring problems."
    [long_thread] [gh_item 11 "Crash on load"] [example_task] "dspy" 10 0
    = (Return [], 2) /\
  (generate_tasks_for_type repr0 L_dedup_fails "bug_patterns" "Recurring problems."
     [long_thread] [gh_item 11 "Crash on load"] [example_task] "dspy" 10 0).1
    <> Raise quota_error.
Proof.
  split; [reflexivity |]. split; [vm_compute; reflexivity |].
  vm_compute. discriminate.
Qed.

End GenerateTheorems.

(* ===================================================================== *)
(** * Further theorems: eval.py *)
(* ===================================================================== *)

Module EvalExtras.
Import Eval Props MoreProps Fixtures MoreFixtures.

(** ** Resolving the answers *)

Lemma first_output_file_priority (E : env) (env_path : string)
    (files : list string) (i : nat) (name : string) (c : outcome string) :
  files !! i = Some name ->
  (forall j earlier, j < i -> files !! j = Some earlier ->
                     fs E !! (env_path </> earlier) = None) ->
  fs E !! (env_path </> name) = Some c ->
  first_output_file E env_path files = c.
Proof.
  revert i. induction files as [| f rest IH]; intros i Hi Hearlier Hc;
    [discriminate |].
  cbn [first_output_file]. destruct i as [| i].
  - injection Hi as ->. now rewrite Hc.
  - rewrite (Hearlier 0 f); [| lia | reflexivity].
    apply (IH i Hi); [| exact Hc].
    intros j earlier Hj Hlook. apply (Hearlier (S j) earlier); [lia | exact Hlook].
Qed.

(** X1.  The candidate answer is resolved in a fixed order.  An answer
    file named by the run and existing is the one read, whatever the
    environment holds.  Otherwise (no file named, or a named file that does
    not exist, which is passed over in silence) the first of the
    conventional file names, in their listed order, that exists in the
    environment is read; a later name is never read while an earlier one
    exists.  What reading the chosen file gives, text or exception, is the
    outcome: a file that cannot be read is not passed over. *)
Theorem candidate_answer_resolution_order (E : env) (run : Run) :
  (forall p c,
     agent_answer_path run = Some p -> p <> EmptyString -> fs E !! p = Some c ->
     get_agent_answer E run = c) /\
  (forall i name c,
     no_explicit_answer E run ->
     output_files !! i = Some name ->
     (forall j earlier, j < i -> output_files !! j = Some earlier ->
                        fs E !! (env_path run </> earlier) = None) ->
     fs E !! (env_path run </> name) = Some c ->
     get_agent_answer E run = c).
Proof.
  split.
  - intros p c Hp Hne Hc. unfold get_agent_answer. rewrite Hp.
    destruct (String.eqb_spec p EmptyString) as [| _]; [contradiction |].
    now rewrite Hc.
  - intros i name c Hexplicit Hi Hearlier Hc. unfold get_agent_answer.
    assert (Hnone : match agent_answer_path run with
                    | Some p => if String.eqb p EmptyString then None else fs E !! p
                    | None => None
                    end = None).
    { unfold no_explicit_answer in Hexplicit.
      destruct (agent_answer_path run) as [p |]; [| reflexivity].
      destruct (String.eqb_spec p EmptyString) as [| Hne]; [reflexivity |].
      destruct Hexplicit as [-> | Hmissing]; [contradiction | exact Hmissing]. }
    rewrite Hnone.
    exact (first_output_file_priority E (env_path run) output_files i name c
             Hi Hearlier Hc).
Qed.

Lemma first_output_file_none (E : env) (env_path : string) (files : list string) :
  Forall (fun name => fs E !! (env_path </> name) = None) files ->
  first_output_file E env_path files
  = Return "No agent answer file found. Agent may have provided answer in terminal output only.".
Proof.
  induction 1 as [| f rest Hf _ IH]; [reflexivity |].
  cbn [first_output_file]. now rewrite Hf.
Qed.

Lemma get_agent_answer_none (E : env) (run : Run) :
  no_candidate_file E run ->
  get_agent_answer E run
  = Return "No agent answer file found. Agent may have provided answer in terminal output only.".
Proof.
  intros [Hexplicit Hfiles]. unfold get_agent_answer.
  destruct (agent_answer_path run) as [p |].
  - destruct (String.eqb_spec p EmptyString) as [| Hne].
    + now apply first_output_file_none.
    + destruct Hexplicit as [-> | ->]; [contradiction |].
      now apply first_output_file_none.
  - now apply first_output_file_none.
Qed.

(** X2.  Missing answer files never make an evaluation fail.  When neither
    the reference answer nor any candidate answer file exists, the
    capability is still called, once, with the two stand-in texts, and
    the evaluation returns a record, whatever the capability does. *)
Theorem missing_answers_are_not_errors (E : env) (run : Run) (k : nat) :
  fs E !! (eval_dir E </> "dataset_from_dspy" </> "source_answers"
             </> (task_id run +:+ ".md")) = None ->
  no_candidate_file E run ->
  let source_answer := "No source answer found for task " +:+ task_id run in
  let agent_answer :=
    "No agent answer file found. Agent may have provided answer in terminal output only." in
  exists res,
    evaluate_git_qa E run k = (Return res, S k) /\
    details res !! "source_answer_length" = Some (len source_answer) /\
    details res !! "agent_answer_length" = Some (VInt 83) /\
    match evaluator E k (task_id run) source_answer agent_answer with
    | Return r => score res = (inject_Z (total_score r) / 100)%Q
    | Raise e => score res = 0%Q /\ details res !! "error" = Some (VStr (exn_str e))
    end.
Proof.
  intros Hsource Hcandidate source_answer agent_answer.
  assert (Hs : get_source_answer E (task_id run) = Return source_answer).
  { unfold get_source_answer. now rewrite Hsource. }
  pose proof (get_agent_answer_none E run Hcandidate) as Ha.
  fold agent_answer in Ha.
  destruct (evaluator E k (task_id run) source_answer agent_answer) as [r | e] eqn:Hr.
  - eexists. split;
      [exact (EvalTheorems.evaluate_git_qa_scored E run k _ _ r Hs Ha Hr) |].
    repeat split; reflexivity.
  - eexists. split;
      [exact (EvalTheorems.evaluate_git_qa_failed E run k _ _ e Hs Ha Hr) |].
    repeat split; reflexivity.
Qed.

(** ** What an evaluation does to the capability *)

Lemma evaluate_git_qa_effect (E : env) (run : Run) (k : nat) :
  (exists res, evaluate_git_qa E run k = (Return res, S k)) \/
  (exists e, evaluate_git_qa E run k = (Raise e, k)).
Proof.
  destruct (get_source_answer E (task_id run)) as [s | e] eqn:Hs.
  - destruct (get_agent_answer E run) as [a | e] eqn:Ha.
    + left. destruct (evaluator E k (task_id run) s a) as [r | e] eqn:Hr.
      * eexists. exact (EvalTheorems.evaluate_git_qa_scored E run k _ _ r Hs Ha Hr).
      * eexists. exact (EvalTheorems.evaluate_git_qa_failed E run k _ _ e Hs Ha Hr).
    + right. exists e.
      exact (EvalTheorems.evaluate_git_qa_agent_raises E run k s e Hs Ha).
  - right. exists e. exact (EvalTheorems.evaluate_git_qa_source_raises E run k e Hs).
Qed.

(** X3.  An evaluation that returns has called the capability exactly
    once, and an evaluation that raises has not called it at all. *)
Theorem evaluation_calls_capability_once (E : env) (run : Run) (k : nat) :
  (exists res, evaluate_git_qa E run k = (Return res, S k)) \/
  (exists e, evaluate_git_qa E run k = (Raise e, k)).
Proof. exact (evaluate_git_qa_effect E run k). Qed.

(** X4.  With an environment path given, the candidate answer does not
    depend on the task: every task of a sweep is evaluated against what
    the same path resolves to, each against its own reference answer. *)
Theorem env_path_shares_candidate_answer (E : env) (t t' : task_data)
    (p : string) (agent_answer_path : option string) (k : nat) :
  p <> EmptyString ->
  get_agent_answer E (task_run t (Some p) agent_answer_path)
    = get_agent_answer E (task_run t' (Some p) agent_answer_path) /\
  evaluate_task E t (Some p) agent_answer_path k
    = evaluate_git_qa E (task_run t (Some p) agent_answer_path) k.
Proof.
  intros Hp. split; [| reflexivity].
  unfold get_agent_answer, task_run. cbn [Models.agent_answer_path Models.env_path str_or].
  destruct (String.eqb_spec p EmptyString) as [| _]; [contradiction | reflexivity].
Qed.

(** X5.  The result of an evaluation is settled by the task id and by
    what the candidate answer resolves to, and by nothing else of the run:
    two runs with the same id and the same candidate answer are evaluated
    alike, call for call.  The task text and [source_answer_path] are never
    read, the reference answer being looked up by [task_id] alone. *)
Theorem evaluation_depends_on_id_and_candidate (E : env) (run run' : Run)
    (k : nat) :
  task_id run = task_id run' ->
  get_agent_answer E run = get_agent_answer E run' ->
  evaluate_git_qa E run k = evaluate_git_qa E run' k.
Proof.
  intros Hid Hanswer.
  unfold evaluate_git_qa, eval_function, evaluate_git_qa_func.
  cbv zeta. rewrite Hid, Hanswer. reflexivity.
Qed.

(** ** The sweep *)

Lemma task_outcomes_calls (E : env) (env_path : option string)
    (tasks : list task_data) (k : nat) :
  (task_outcomes E env_path tasks k).2
  = k + length (returned_scores (task_outcomes E env_path tasks k).1).
Proof.
  revert k. induction tasks as [| t rest IH]; intros k; [cbn; lia |].
  cbn [task_outcomes]. unfold evaluate_task.
  match goal with
  | |- context [evaluate_git_qa E ?run k] =>
      destruct (evaluate_git_qa_effect E run k) as [[res Hrun] | [e Hrun]];
      rewrite Hrun
  end.
  - specialize (IH (S k)).
    destruct (task_outcomes E env_path rest (S k)) as [os k2].
    cbn in *. lia.
  - specialize (IH k).
    destruct (task_outcomes E env_path rest k) as [os k2].
    cbn in *. lia.
Qed.

Lemma sweep_report (E : env) (a : args) (tasks : list task_data) (k : nat) :
  arg_task_id a = None ->
  let os := (task_outcomes E (arg_env_path a) tasks k).1 in
  main E a tasks k =
    (Return (SweepReport
               {| average_score :=
                    match returned_scores os with
                    | [] => 0%Q
                    | _ => (sum (returned_scores os)
                            / inject_Z (Z.of_nat (length (returned_scores os))))%Q
                    end;
                  tasks_evaluated := length (returned_scores os);
                  total_tasks := length tasks |}
               (zip_with entry_of tasks os)),
     (task_outcomes E (arg_env_path a) tasks k).2).
Proof.
  intros Hid os.
  pose proof (EvalTheorems.task_outcomes_length E (arg_env_path a) tasks k) as Hlen.
  fold os in Hlen.
  unfold main. rewrite Hid. unfold bind at 1.
  rewrite EvalTheorems.sweep_loop_outcomes. fold os. cbn [app]. unfold ret.
  unfold summarize. rewrite (EvalTheorems.valid_scores_returned tasks os Hlen).
  reflexivity.
Qed.

(** X6.  A sweep calls the capability once for each task it counts as
    evaluated and for no other: the number of calls it makes is its
    [tasks_evaluated]. *)
Theorem sweep_calls_once_per_evaluated_task (E : env) (a : args)
    (tasks : list task_data) (k : nat) :
  arg_task_id a = None ->
  exists s results k',
    main E a tasks k = (Return (SweepReport s results), k') /\
    k' = k + tasks_evaluated s.
Proof.
  intros Hid. eexists _, _, _. split; [exact (sweep_report E a tasks k Hid) |].
  cbn [tasks_evaluated]. apply task_outcomes_calls.
Qed.

Lemma zip_entry_ids (tasks : list task_data) (os : list (outcome EvalResult)) :
  length os = length tasks ->
  entry_task_id <$> zip_with entry_of tasks os = td_task_id <$> tasks.
Proof.
  revert os. induction tasks as [| t rest IH]; intros [| o os] Hlen;
    try discriminate; [reflexivity |].
  injection Hlen as Hlen. cbn [zip_with fmap list_fmap].
  f_equal; [now destruct o | exact (IH os Hlen)].
Qed.

Lemma zip_entry_errors (tasks : list task_data) (os : list (outcome EvalResult)) :
  length os = length tasks ->
  length (returned_scores os) + length (errored_entries (zip_with entry_of tasks os))
  = length tasks.
Proof.
  revert os. induction tasks as [| t rest IH]; intros [| o os] Hlen;
    try discriminate; [reflexivity |].
  injection Hlen as Hlen. specialize (IH os Hlen).
  unfold errored_entries, returned_scores in *. destruct o; cbn in *; lia.
Qed.

(** X7.  A sweep records exactly one entry per task, in the order of the
    task list and under the task's id, and every task is either counted as
    evaluated or recorded with an error: [tasks_evaluated] plus the number
    of error entries is [total_tasks]. *)
Theorem sweep_accounts_for_every_task (E : env) (a : args)
    (tasks : list task_data) (k : nat) :
  arg_task_id a = None ->
  exists s results k',
    main E a tasks k = (Return (SweepReport s results), k') /\
    entry_task_id <$> results = td_task_id <$> tasks /\
    total_tasks s = length tasks /\
    tasks_evaluated s + length (errored_entries results) = total_tasks s.
Proof.
  intros Hid. eexists _, _, _. split; [exact (sweep_report E a tasks k Hid) |].
  pose proof (EvalTheorems.task_outcomes_length E (arg_env_path a) tasks k) as Hlen.
  cbn [tasks_evaluated total_tasks]. split; [| split].
  - now apply zip_entry_ids.
  - reflexivity.
  - now apply zip_entry_errors.
Qed.

Lemma fold_sum_bounds (xs : list Q) (acc : Q) (n : Z) :
  Forall in_unit_interval xs ->
  (0 <= acc)%Q -> (acc <= inject_Z n)%Q ->
  (0 <= fold_left Qplus xs acc)%Q /\
  (fold_left Qplus xs acc <= inject_Z (n + Z.of_nat (length xs)))%Q.
Proof.
  intros Hall. revert acc n.
  induction Hall as [| x xs [Hx0 Hx1] _ IH]; intros acc n Hlo Hhi.
  - cbn. now rewrite Z.add_0_r.
  - cbn [fold_left length].
    replace (n + Z.of_nat (S (length xs)))%Z with ((n + 1) + Z.of_nat (length xs))%Z
      by lia.
    apply IH.
    + replace 0%Q with (0 + 0)%Q by reflexivity. now apply Qplus_le_compat.
    + rewrite inject_Z_plus. now apply Qplus_le_compat.
Qed.

Lemma mean_in_unit_interval (xs : list Q) :
  Forall in_unit_interval xs ->
  in_unit_interval
    match xs with
    | [] => 0%Q
    | _ => (sum xs / inject_Z (Z.of_nat (length xs)))%Q
    end.
Proof.
  intros Hall. destruct xs as [| x xs]; [split; discriminate |].
  unfold sum.
  destruct (fold_sum_bounds (x :: xs) 0 0 Hall) as [Hlo Hhi];
    [apply Qle_refl | apply Qle_refl |].
  rewrite Z.add_0_l in Hhi.
  assert (Hpos : (0 < inject_Z (Z.of_nat (length (x :: xs))))%Q).
  { unfold Qlt. cbn. lia. }
  split.
  - apply Qle_shift_div_l; [exact Hpos |]. now rewrite Qmult_0_l.
  - apply Qle_shift_div_r; [exact Hpos |]. now rewrite Qmult_1_l.
Qed.

Lemma evaluate_git_qa_score_range (E : env) (run : Run) (k : nat)
    (res : EvalResult) (k' : nat) :
  (forall j task_id source_answer agent_answer r,
     evaluator E j task_id source_answer agent_answer = Return r ->
     (0 <= total_score r <= 100)%Z) ->
  evaluate_git_qa E run k = (Return res, k') ->
  in_unit_interval (score res).
Proof.
  intros Hrange Hrun.
  destruct (get_source_answer E (task_id run)) as [s | e] eqn:Hs;
    [| rewrite (EvalTheorems.evaluate_git_qa_source_raises E run k e Hs) in Hrun;
       discriminate].
  destruct (get_agent_answer E run) as [a | e] eqn:Ha;
    [| rewrite (EvalTheorems.evaluate_git_qa_agent_raises E run k s e Hs Ha) in Hrun;
       discriminate].
  destruct (evaluator E k (task_id run) s a) as [r | e] eqn:Hr.
  - rewrite (EvalTheorems.evaluate_git_qa_scored E run k s a r Hs Ha Hr) in Hrun.
    injection Hrun as <- _. specialize (Hrange _ _ _ _ _ Hr).
    unfold in_unit_interval, Qle, Qdiv, Qmult, Qinv, inject_Z. cbn. lia.
  - rewrite (EvalTheorems.evaluate_git_qa_failed E run k s a e Hs Ha Hr) in Hrun.
    injection Hrun as <- _. split; discriminate.
Qed.

Lemma task_outcomes_score_range (E : env) (env_path : option string)
    (tasks : list task_data) (k : nat) :
  (forall j task_id source_answer agent_answer r,
     evaluator E j task_id source_answer agent_answer = Return r ->
     (0 <= total_score r <= 100)%Z) ->
  Forall in_unit_interval (returned_scores (task_outcomes E env_path tasks k).1).
Proof.
  intros Hrange. revert k. induction tasks as [| t rest IH]; intros k;
    [constructor |].
  cbn [task_outcomes].
  destruct (evaluate_task E t env_path None k) as [o k1] eqn:Hrun.
  specialize (IH k1).
  destruct (task_outcomes E env_path rest k1) as [os k2].
  cbn [fst] in *. unfold returned_scores in *.
  destruct o as [res | e]; cbn [omap]; [| exact IH].
  constructor; [| exact IH].
  exact (evaluate_git_qa_score_range E _ k res k1 Hrange Hrun).
Qed.

(** X8.  If the capability, whenever it returns, returns a [total_score]
    within [0,100], then every score a sweep records lies in [0,1] and so
    does the reported [average_score], for every task list, the empty one
    and the ones on which every task fails included. *)
Theorem sweep_average_in_unit_interval (E : env) (a : args)
    (tasks : list task_data) (k : nat) :
  arg_task_id a = None ->
  (forall j task_id source_answer agent_answer r,
     evaluator E j task_id source_answer agent_answer = Return r ->
     (0 <= total_score r <= 100)%Z) ->
  exists s results k',
    main E a tasks k = (Return (SweepReport s results), k') /\
    in_unit_interval (average_score s) /\
    Forall (fun entry => in_unit_interval (entry_score entry)) results.
Proof.
  intros Hid Hrange. eexists _, _, _.
  split; [exact (sweep_report E a tasks k Hid) |].
  pose proof (task_outcomes_score_range E (arg_env_path a) tasks k Hrange) as Hscores.
  pose proof (EvalTheorems.task_outcomes_length E (arg_env_path a) tasks k) as Hlen.
  cbn [average_score]. split; [now apply mean_in_unit_interval |].
  revert Hscores Hlen.
  generalize (task_outcomes E (arg_env_path a) tasks k).1 as os.
  induction tasks as [| t rest IH]; intros [| o os] Hscores Hlen;
    try discriminate; [constructor |].
  injection Hlen as Hlen. cbn [zip_with]. unfold returned_scores in *.
  destruct o as [res | e]; cbn [omap] in Hscores.
  - inversion Hscores as [| ? ? Hres Hrest]; subst.
    constructor; [exact Hres | exact (IH os Hrest Hlen)].
  - constructor; [split; discriminate | exact (IH os Hscores Hlen)].
Qed.

(** X9.  When the evaluation of every task raises, and when the task list is
    empty, the sweep still returns a summary: no score is divided by zero,
    [average_score] is 0.0 and [tasks_evaluated] is 0. *)
Theorem sweep_without_evaluated_tasks (E : env) (a : args)
    (tasks : list task_data) (k : nat) :
  arg_task_id a = None ->
  Forall (fun o => exists e, o = Raise e)
    (task_outcomes E (arg_env_path a) tasks k).1 ->
  exists results,
    main E a tasks k =
      (Return (SweepReport
                 {| average_score := 0%Q; tasks_evaluated := 0;
                    total_tasks := length tasks |} results), k) /\
    Forall (fun entry => has_error entry = true) results.
Proof.
  intros Hid Hall.
  pose proof (sweep_report E a tasks k Hid) as Hmain.
  pose proof (task_outcomes_calls E (arg_env_path a) tasks k) as Hcalls.
  pose proof (EvalTheorems.task_outcomes_length E (arg_env_path a) tasks k) as Hlen.
  cbn zeta in Hmain. revert Hmain Hcalls Hlen Hall.
  generalize (task_outcomes E (arg_env_path a) tasks k).2 as k'.
  generalize (task_outcomes E (arg_env_path a) tasks k).1 as os.
  intros os k' Hmain Hcalls Hlen Hall.
  assert (Hnone : returned_scores os = []).
  { clear -Hall. induction Hall as [| o os [e ->] _ IH]; [reflexivity | exact IH]. }
  rewrite Hnone in Hmain, Hcalls. cbn in Hcalls.
  replace k' with k in Hmain by lia.
  eexists. split; [exact Hmain |].
  clear -Hall Hlen. revert os Hall Hlen.
  induction tasks as [| t rest IH]; intros [| o os] Hall Hlen;
    try discriminate; [constructor |].
  injection Hlen as Hlen. inversion Hall as [| ? ? [e ->] Hrest]; subst.
  constructor; [reflexivity | exact (IH os Hrest Hlen)].
Qed.

(** ** One task *)

(** X10.  With [--task-id], [main] evaluates the first task of the manifest
    that has this id and no other task.  Nothing is caught in this mode:
    an exception raised out of the evaluation leaves [main], where in a
    sweep it would become an entry.  With an id that no task has, [main]
    reports that and the capability is not called. *)
Theorem single_task_mode (E : env) (a : args) (tasks : list task_data)
    (wanted : string) (k : nat) :
  arg_task_id a = Some wanted ->
  wanted <> EmptyString ->
  (Forall (fun t => td_task_id t <> wanted) tasks ->
   main E a tasks k = (Return TaskNotFound, k)) /\
  (forall before t after,
     tasks = before ++ t :: after ->
     Forall (fun t' => td_task_id t' <> wanted) before ->
     td_task_id t = wanted ->
     match evaluate_task E t (arg_env_path a) (arg_agent_answer a) k with
     | (Return result, k') =>
         main E a tasks k
         = (Return (TaskReport wanted (score result) (details result)), k')
     | (Raise e, k') => main E a tasks k = (Raise e, k')
     end).
Proof.
  intros Hid Hne. unfold main. rewrite Hid.
  destruct (String.eqb_spec wanted EmptyString) as [| _]; [contradiction |].
  split.
  - intros Hall.
    assert (Hfind : List.find (fun t => String.eqb (td_task_id t) wanted) tasks = None).
    { induction Hall as [| t rest Ht _ IH]; [reflexivity |].
      cbn [List.find]. destruct (String.eqb_spec (td_task_id t) wanted);
        [contradiction | exact IH]. }
    now rewrite Hfind.
  - intros before t after -> Hbefore Ht.
    assert (Hfind : List.find (fun t => String.eqb (td_task_id t) wanted)
                      (before ++ t :: after) = Some t).
    { induction Hbefore as [| t' rest Ht' _ IH].
      - cbn [app List.find]. destruct (String.eqb_spec (td_task_id t) wanted);
          [reflexivity | contradiction].
      - cbn [app List.find]. destruct (String.eqb_spec (td_task_id t') wanted);
          [contradiction | exact IH]. }
    rewrite Hfind. unfold bind, ret.
    destruct (evaluate_task E t (arg_env_path a) (arg_agent_answer a) k)
      as [[result | e] k']; reflexivity.
Qed.

(** ** The theorems at work on concrete runs *)

Lemma candidate_answer_resolution_order_witness :
  get_agent_answer E_two_answers run_named = Return "From the named file." /\
  get_agent_answer E_two_answers run_named_missing = Return "From analysis.md.".
Proof.
  split.
  - apply (proj1 (candidate_answer_resolution_order E_two_answers run_named)
             "/home/agent/final.md"); [reflexivity | discriminate | reflexivity].
  - apply (proj2 (candidate_answer_resolution_order E_two_answers run_named_missing)
             1 "analysis.md").
    + right. reflexivity.
    + reflexivity.
    + intros [| j] earlier Hj Hlook; [injection Hlook as <-; reflexivity | lia].
    + reflexivity.
Defined.

Lemma missing_answers_are_not_errors_witness :
  exists res,
    evaluate_git_qa E_empty run_crash 0 = (Return res, 1) /\
    details res !! "source_answer_length" = Some (VInt 50) /\
    details res !! "agent_answer_length" = Some (VInt 83) /\
    score res = (inject_Z 0 / 100)%Q.
Proof.
  apply (missing_answers_are_not_errors E_empty run_crash 0).
  - reflexivity.
  - split; [exact I |]. repeat constructor.
Defined.

Lemma sweep_calls_once_per_evaluated_task_witness :
  exists s results k',
    main E_sweep sweep_args sweep_tasks 0 = (Return (SweepReport s results), k') /\
    k' = 0 + tasks_evaluated s.
Proof.
  apply (sweep_calls_once_per_evaluated_task E_sweep sweep_args sweep_tasks 0).
  reflexivity.
Defined.

Lemma sweep_accounts_for_every_task_witness :
  exists s results k',
    main E_sweep sweep_args sweep_tasks 0 = (Return (SweepReport s results), k') /\
    entry_task_id <$> results = td_task_id <$> sweep_tasks /\
    total_tasks s = 3 /\
    tasks_evaluated s + length (errored_entries results) = total_tasks s.
Proof.
  apply (sweep_accounts_for_every_task E_sweep sweep_args sweep_tasks 0).
  reflexivity.
Defined.

Lemma sweep_average_in_unit_interval_witness :
  exists s results k',
    main E_sweep sweep_args sweep_tasks 0 = (Return (SweepReport s results), k') /\
    in_unit_interval (average_score s) /\
    Forall (fun entry => in_unit_interval (entry_score entry)) results.
Proof.
  apply (sweep_average_in_unit_interval E_sweep sweep_args sweep_tasks 0).
  - reflexivity.
  - intros [| j] task_id source_answer agent_answer r Hr; [| discriminate Hr].
    injection Hr as <-. cbn. lia.
Defined.

Lemma sweep_without_evaluated_tasks_witness :
  exists results,
    main E_sweep sweep_args
      [ {| td_task_id := "cache_races"; td_task := "Which races hit the cache?" |} ] 0
    = (Return (SweepReport
                 {| average_score := 0%Q; tasks_evaluated := 0; total_tasks := 1 |}
                 results), 0) /\
    Forall (fun entry => has_error entry = true) results.
Proof.
  apply (sweep_without_evaluated_tasks E_sweep sweep_args
           [ {| td_task_id := "cache_races";
                td_task := "Which races hit the cache?" |} ] 0).
  - reflexivity.
  - constructor; [| constructor]. eexists. reflexivity.
Defined.

Lemma single_task_mode_witness :
  main E_sweep single_args sweep_tasks 0 = (Raise decode_error, 0) /\
  main E_sweep unknown_args sweep_tasks 0 = (Return TaskNotFound, 0).
Proof.
  split.
  - apply (proj2 (single_task_mode E_sweep single_args sweep_tasks "cache_races" 0
                    eq_refl ltac:(discriminate))
             [ {| td_task_id := "teleprompter_crash"; td_task := "Which failure recurs?" |} ]
             {| td_task_id := "cache_races"; td_task := "Which races hit the cache?" |}
             [ {| td_task_id := "typed_predictors"; td_task := "How did typing evolve?" |} ]).
    + reflexivity.
    + constructor; [discriminate | constructor].
    + reflexivity.
  - apply (proj1 (single_task_mode E_sweep unknown_args sweep_tasks "no_such_task" 0
                    eq_refl ltac:(discriminate))).
    repeat (constructor; [discriminate |]). constructor.
Defined.

Lemma evaluation_depends_on_id_and_candidate_witness :
  evaluate_git_qa E_two_answers run_named_missing 0
  = evaluate_git_qa E_two_answers
      {| task_id := "teleprompter_crash";
         task := "Another question.";
         env_path := "./envs/teleprompter_crash";
         agent_answer_path := None;
         source_answer_path := Some "/elsewhere/reference.md" |} 0.
Proof.
  apply (evaluation_depends_on_id_and_candidate E_two_answers); reflexivity.
Defined.

Lemma env_path_shares_candidate_answer_witness :
  get_agent_answer E_two_answers
    (task_run {| td_task_id := "cache_races"; td_task := "Which races hit the cache?" |}
       (Some "./envs/teleprompter_crash") None)
  = get_agent_answer E_two_answers
      (task_run {| td_task_id := "typed_predictors"; td_task := "How did typing evolve?" |}
         (Some "./envs/teleprompter_crash") None).
Proof.
  apply (env_path_shares_candidate_answer E_two_answers _ _ "./envs/teleprompter_crash"
           None 0).
  discriminate.
Defined.

End EvalExtras.

(* ===================================================================== *)
(** * Further theorems: generate.py, fetching *)
(* ===================================================================== *)

Module FetchExtras.
Import Generate Props MoreProps Fixtures MoreFixtures.

Section Fetch.
Variable srv : server.
Variables owner repo data_type save_path : string.
Variable fetch_comments_flag : bool.

Local Abbreviation iteration := (page_iteration srv owner repo data_type save_path fetch_comments_flag).
Local Abbreviation loop fuel := (paging_loop srv fuel owner repo data_type save_path fetch_comments_flag).
Local Abbreviation fetch fuel := (fetch_github_data srv fuel owner repo data_type save_path fetch_comments_flag).

(** ** What the comment calls send *)

Lemma fetch_comments_requests (item_number : value) (w : world) :
  exists extra,
    requests (fetch_comments srv owner repo data_type item_number w).2
      = requests w ++ extra /\
    List.filter is_listing extra = [] /\
    length extra = if String.eqb data_type "pulls" then 2 else 1.
Proof.
  unfold fetch_comments, requests_get_comments.
  destruct (String.eqb data_type "pulls"); cbn.
  - exists [GetIssueComments owner repo item_number;
            GetReviewComments owner repo item_number].
    rewrite <- app_assoc. auto.
  - exists [GetIssueComments owner repo item_number].
    destruct (status_code _ =? 200)%Z; auto.
Qed.

Lemma attach_comments_requests (items : list (gmap string value)) (w : world) :
  exists extra,
    requests (attach_comments srv owner repo data_type items w).2
      = requests w ++ extra /\
    List.filter is_listing extra = [] /\
    length extra
      = (if String.eqb data_type "pulls" then 2 else 1)
        * length (List.filter numbered items).
Proof.
  revert w. induction items as [| item rest IH]; intros w.
  { exists []. cbn. rewrite app_nil_r. split; [reflexivity | split; [reflexivity | lia]]. }
  cbn [attach_comments List.filter]. unfold numbered at 1.
  destruct (truthy (default_or_lookup item "number" VNone)).
  - destruct (fetch_comments_requests (default_or_lookup item "number" VNone) w)
      as (extra1 & Hreq1 & Hfilter1 & Hlen1).
    destruct (fetch_comments srv owner repo data_type _ w) as [cs w1].
    destruct (IH w1) as (extra2 & Hreq2 & Hfilter2 & Hlen2).
    destruct (attach_comments srv owner repo data_type rest w1) as [rest' w2].
    cbn [snd] in *. exists (extra1 ++ extra2). split; [| split].
    + rewrite Hreq2, Hreq1. now rewrite app_assoc.
    + rewrite List.filter_app, Hfilter1, Hfilter2. reflexivity.
    + rewrite length_app, Hlen1, Hlen2. cbn [length]. lia.
  - destruct (IH w) as (extra2 & Hreq2 & Hfilter2 & Hlen2).
    destruct (attach_comments srv owner repo data_type rest w) as [rest' w2].
    cbn [snd] in *. exists extra2. auto.
Qed.

(** X11.  Attaching the threads keeps the items as they are but for the
    ["comments"] key: the list keeps its length and order, every other key
    of every item keeps its value, an item without a number that counts as
    true is left untouched, and an item with one gets a list under
    ["comments"], in place of whatever was there. *)
Theorem attach_comments_changes_comments_only
    (items : list (gmap string value)) (w : world) :
  Forall2
    (fun item item' =>
       (forall key, key <> "comments" -> item' !! key = item !! key) /\
       (numbered item = false -> item' = item) /\
       (numbered item = true -> exists comments,
                                  item' !! "comments" = Some (VList comments)))
    items (attach_comments srv owner repo data_type items w).1.
Proof.
  revert w. induction items as [| item rest IH]; intros w; [constructor |].
  cbn [attach_comments].
  destruct (truthy (default_or_lookup item "number" VNone)) eqn:Hnumber.
  - destruct (fetch_comments srv owner repo data_type _ w) as [cs w1].
    specialize (IH w1).
    destruct (attach_comments srv owner repo data_type rest w1) as [rest' w2].
    cbn [fst] in *. constructor; [| exact IH]. unfold numbered. rewrite Hnumber.
    split; [| split].
    + intros key Hkey. now apply lookup_insert_ne.
    + discriminate.
    + intros _. exists cs. apply lookup_insert_eq.
  - specialize (IH w).
    destruct (attach_comments srv owner repo data_type rest w) as [rest' w2].
    cbn [fst] in *. constructor; [| exact IH]. unfold numbered. rewrite Hnumber.
    split; [| split]; auto. discriminate.
Qed.

Lemma attach_comments_numbered (items : list (gmap string value)) (w : world) :
  length (List.filter numbered (attach_comments srv owner repo data_type items w).1)
  = length (List.filter numbered items).
Proof.
  revert w. induction items as [| item rest IH]; intros w; [reflexivity |].
  cbn [attach_comments].
  destruct (truthy (default_or_lookup item "number" VNone)) eqn:Hnumber.
  - destruct (fetch_comments srv owner repo data_type _ w) as [cs w1].
    specialize (IH w1).
    destruct (attach_comments srv owner repo data_type rest w1) as [rest' w2].
    cbn [fst List.filter] in *.
    assert (Hkept : numbered (<["comments" := VList cs]> item) = true).
    { unfold numbered, default_or_lookup. rewrite lookup_insert_ne by discriminate.
      exact Hnumber. }
    assert (Hn : numbered item = true) by exact Hnumber.
    rewrite Hkept, Hn. cbn [length]. now rewrite IH.
  - specialize (IH w).
    destruct (attach_comments srv owner repo data_type rest w) as [rest' w2].
    cbn [fst List.filter] in *.
    assert (Hn : numbered item = false) by exact Hnumber.
    rewrite Hn. exact IH.
Qed.

Local Abbreviation comment_calls := (comment_requests fetch_comments_flag data_type).

(** One pass of the loop: what it appends, what it sends, what it leaves
    alone, and which way it goes. *)
Lemma iteration_summary (page : nat) (all_items : list (gmap string value)) (w : world)
    (c : loop_ctl) (all_items' : list (gmap string value)) (w' : world) :
  iteration page all_items w = (c, all_items', w') ->
  let response := listing srv (requests w) (GetListing owner repo data_type page) in
  exists added extra,
    all_items' = all_items ++ added /\
    requests w' = requests w ++ GetListing owner repo data_type page :: extra /\
    List.filter is_listing extra = [] /\
    length extra = comment_calls added /\
    (forall p, p <> save_path -> files w' !! p = files w !! p) /\
    (c = Continue -> keeps_paging response) /\
    (c = Break -> stops_paging response) /\
    (status_code response = 200%Z -> length added = length (json response)).
Proof.
  unfold page_iteration, requests_get_listing.
  set (response := listing srv (requests w) (GetListing owner repo data_type page)).
  cbn zeta.
  destruct (Z.eqb_spec (status_code response) 200) as [Hok | Hfail]; cbn [negb].
  2: { intros [= <- <- <-]. exists [], []. rewrite app_nil_r. cbn [files requests].
       unfold comment_requests. cbn. rewrite Nat.mul_0_r.
       repeat split; auto; try discriminate.
       - now destruct fetch_comments_flag.
       - intros _. now left.
       - contradiction. }
  destruct (json response) as [| item items] eqn:Hitems.
  { intros [= <- <- <-]. exists [], []. rewrite app_nil_r. cbn [files requests].
    unfold comment_requests. cbn. rewrite Nat.mul_0_r.
    repeat split; auto; try discriminate.
    - now destruct fetch_comments_flag.
    - intros _. right. now left. }
  set (w1 := {| files := files w;
                requests := requests w ++ [GetListing owner repo data_type page] |}).
  assert (Hattach : exists items' w2 extra,
            (if fetch_comments_flag
             then attach_comments srv owner repo data_type (item :: items) w1
             else (item :: items, w1)) = (items', w2) /\
            requests w2 = requests w1 ++ extra /\
            List.filter is_listing extra = [] /\
            length extra = comment_calls items' /\
            files w2 = files w1 /\
            length items' = length (item :: items)).
  { unfold comment_requests. destruct fetch_comments_flag.
    - destruct (attach_comments_requests (item :: items) w1)
        as (extra & Hreq & Hfilter & Hlen).
      pose proof (attach_comments_numbered (item :: items) w1) as Hnumbered.
      pose proof (FetchTheorems.attach_comments_files srv owner repo data_type
                    (item :: items) w1) as Hfiles.
      pose proof (FetchTheorems.attach_comments_length srv owner repo data_type
                    (item :: items) w1) as Hlength.
      destruct (attach_comments srv owner repo data_type (item :: items) w1)
        as [items' w2].
      cbn [fst snd] in *. exists items', w2, extra.
      rewrite Hnumbered. auto 10.
    - exists (item :: items), w1, []. rewrite app_nil_r. auto 10. }
  destruct Hattach as (items' & w2 & extra & -> & Hreq & Hfilter & Hlen & Hfiles & Hlength).
  intros H.
  assert (Hresult : all_items' = all_items ++ items' /\
                    w' = write_json save_path (all_items ++ items') w2).
  { destruct (ratelimit_remaining response) as [remaining |];
      [destruct (remaining <? 10)%Z |]; now inversion H. }
  destruct Hresult as [-> ->].
  exists items', extra. cbn [files requests write_json].
  split; [reflexivity |]. split.
  { rewrite Hreq. unfold w1. cbn [requests]. now rewrite <- app_assoc. }
  split; [exact Hfilter |]. split; [exact Hlen |]. split.
  { intros p Hp. rewrite lookup_insert_ne by congruence. now rewrite Hfiles. }
  split; [| split].
  - intros ->. split; [exact Hok |]. split; [now rewrite Hitems |].
    intros remaining Hremaining. rewrite Hremaining in H.
    destruct (Z.ltb_spec remaining 10); [discriminate | lia].
  - intros ->. right. right.
    destruct (ratelimit_remaining response) as [remaining |]; [| discriminate].
    exists remaining. split; [reflexivity |].
    destruct (Z.ltb_spec remaining 10); [assumption | discriminate].
  - intros _. exact Hlength.
Qed.

Lemma comment_calls_app (xs ys : list (gmap string value)) :
  comment_calls (xs ++ ys) = comment_calls xs + comment_calls ys.
Proof.
  unfold comment_requests. destruct fetch_comments_flag; [| reflexivity].
  rewrite List.filter_app, length_app. lia.
Qed.

(** A run of the loop: the pages it asked for, in order, and what else. *)
Lemma loop_summary (fuel page : nat) (all_items : list (gmap string value)) (w : world)
    (result : list (gmap string value)) (w' : world) :
  loop fuel page all_items w = Some (result, w') ->
  exists m added extra,
    1 <= m <= fuel /\
    result = all_items ++ added /\
    requests w' = requests w ++ extra /\
    List.filter is_listing extra = listing_pages owner repo data_type page m /\
    length extra = m + comment_calls added /\
    (forall p, p <> save_path -> files w' !! p = files w !! p).
Proof.
  revert page all_items w.
  induction fuel as [| fuel IH]; intros page all_items w; [discriminate |].
  cbn [paging_loop].
  destruct (iteration page all_items w) as [[c all_items1] w1] eqn:Hit.
  destruct (iteration_summary _ _ _ _ _ _ Hit)
    as (added1 & extra1 & -> & Hreq1 & Hfilter1 & Hlen1 & Hframe1 & _).
  destruct c.
  - intros [= <- <-]. exists 1, added1, (GetListing owner repo data_type page :: extra1).
    split; [lia |]. split; [reflexivity |]. split; [exact Hreq1 |].
    split; [cbn; now rewrite Hfilter1 |]. split; [cbn; lia | exact Hframe1].
  - intros Hloop.
    destruct (IH _ _ _ Hloop) as (m & added & extra & Hm & -> & Hreq & Hfilter & Hlen & Hframe).
    exists (S m), (added1 ++ added),
           ((GetListing owner repo data_type page :: extra1) ++ extra).
    split; [lia |]. split; [now rewrite app_assoc |]. split.
    { rewrite Hreq, Hreq1. now rewrite <- app_assoc. }
    split.
    { rewrite List.filter_app. cbn [List.filter is_listing]. rewrite Hfilter1, Hfilter.
      reflexivity. }
    split.
    { rewrite length_app, comment_calls_app. cbn [length]. lia. }
    intros p Hp. now rewrite Hframe, Hframe1.
Qed.

(** X12.  A fetch that finds no cache and returns has asked the listing
    endpoint for pages 1, 2, ..., [m], each once and in this order, for
    some [m] from 1 to the number of passes allowed; it has sent nothing
    else when comments are skipped, and otherwise one comment request for
    each numbered item it returns (two for each when the items are pull
    requests).  The requests sent before are still in the log, in front. *)
Theorem fetch_request_accounting (fuel : nat) (w w' : world) (data : value) :
  files w !! save_path = None ->
  fetch fuel w = Some (Return data, w') ->
  exists m items extra,
    1 <= m <= fuel /\
    data = items_value items /\
    requests w' = requests w ++ extra /\
    List.filter is_listing extra = listing_pages owner repo data_type 1 m /\
    length extra = m + comment_requests fetch_comments_flag data_type items.
Proof.
  intros Hnone Hfetch. unfold fetch_github_data in Hfetch. rewrite Hnone in Hfetch.
  destruct (loop fuel 1 [] w) as [[all_items w1] |] eqn:Hloop; [| discriminate].
  injection Hfetch as <- <-.
  destruct (loop_summary _ _ _ _ _ _ Hloop)
    as (m & added & extra & Hm & -> & Hreq & Hfilter & Hlen & _).
  exists m, added, extra. auto.
Qed.

(** What a pass, and a run of the loop, does to the files: nothing, or it
    stores the items accumulated, of which there are some, as the cache. *)
Lemma iteration_written (page : nat) (all_items : list (gmap string value)) (w : world)
    (c : loop_ctl) (all_items' : list (gmap string value)) (w' : world) :
  iteration page all_items w = (c, all_items', w') ->
  (c = Break /\ all_items' = all_items /\ files w' = files w) \/
  (all_items' <> [] /\
   files w' = <[save_path := JsonFile (items_value all_items')]> (files w)).
Proof.
  intros Hit.
  destruct (iteration_summary _ _ _ _ _ _ Hit)
    as (added & extra & Hacc & _ & _ & _ & _ & _ & _ & Hlen).
  revert Hit. unfold page_iteration, requests_get_listing.
  set (response := listing srv (requests w) (GetListing owner repo data_type page)) in *.
  destruct (Z.eqb_spec (status_code response) 200) as [Hok | _]; cbn [negb];
    [| intros [= <- <- <-]; left; auto].
  destruct (json response) as [| item items] eqn:Hitems;
    [intros [= <- <- <-]; left; auto |].
  set (w1 := {| files := files w;
                requests := requests w ++ [GetListing owner repo data_type page] |}).
  assert (Hfiles : files (if fetch_comments_flag
                          then attach_comments srv owner repo data_type (item :: items) w1
                          else (item :: items, w1)).2 = files w).
  { destruct fetch_comments_flag; [| reflexivity].
    now rewrite FetchTheorems.attach_comments_files. }
  destruct (if fetch_comments_flag
            then attach_comments srv owner repo data_type (item :: items) w1
            else (item :: items, w1)) as [items' w2].
  cbn [snd] in Hfiles. intros H. right.
  assert (Hw : w' = write_json save_path all_items' w2).
  { destruct (ratelimit_remaining response) as [remaining |];
      [destruct (remaining <? 10)%Z |]; now inversion H. }
  split.
  - specialize (Hlen Hok). cbn [length] in Hlen. rewrite Hacc.
    destruct added; [discriminate | now destruct all_items].
  - rewrite Hw. cbn [files write_json]. now rewrite Hfiles.
Qed.

Lemma loop_written (fuel page : nat) (all_items : list (gmap string value)) (w : world)
    (result : list (gmap string value)) (w' : world) :
  loop fuel page all_items w = Some (result, w') ->
  (result = all_items /\ files w' = files w) \/
  (result <> [] /\
   files w' = <[save_path := JsonFile (items_value result)]> (files w)).
Proof.
  revert page all_items w.
  induction fuel as [| fuel IH]; intros page all_items w; [discriminate |].
  cbn [paging_loop].
  destruct (iteration page all_items w) as [[c all_items1] w1] eqn:Hit.
  destruct (iteration_written _ _ _ _ _ _ Hit) as [(-> & -> & Hsame) | [Hne Hwritten]].
  - intros [= <- <-]. left. auto.
  - destruct c.
    + intros [= <- <-]. right. auto.
    + intros Hloop. right.
      destruct (IH _ _ _ Hloop) as [[-> Hsame] | [Hne' Hwritten']].
      * split; [exact Hne | congruence].
      * split; [exact Hne' |]. rewrite Hwritten', Hwritten.
        apply insert_insert_eq.
Qed.

(** X13.  A fetch writes to its cache path and to no other: the file at
    every other path is as before, whether the fetch read the cache, went
    to the network, or raised.  After a fetch that went to the network, the
    cache holds exactly what the fetch returned, unless it returned no
    item: then no cache file has been created, and the next fetch goes to
    the network again. *)
Theorem fetch_writes_its_cache_only (fuel : nat) (w w' : world)
    (o : outcome value) :
  fetch fuel w = Some (o, w') ->
  (forall p, p <> save_path -> files w' !! p = files w !! p) /\
  (files w !! save_path = None ->
   exists items,
     o = Return (items_value items) /\
     match items with
     | [] => files w' !! save_path = None
     | _ => files w' !! save_path = Some (JsonFile (items_value items))
     end).
Proof.
  unfold fetch_github_data.
  destruct (files w !! save_path) as [[existing | e] |] eqn:Hcache.
  - intros [= <- <-]. split; [reflexivity | discriminate].
  - intros [= <- <-]. split; [reflexivity | discriminate].
  - destruct (loop fuel 1 [] w) as [[all_items w1] |] eqn:Hloop; [| discriminate].
    intros [= <- <-].
    destruct (loop_written _ _ _ _ _ _ Hloop) as [[-> Hsame] | [Hne Hwritten]].
    + split; [intros p _; now rewrite Hsame |].
      intros _. exists []. split; [reflexivity |]. now rewrite Hsame.
    + split; [intros p Hp; rewrite Hwritten; now apply lookup_insert_ne |].
      intros _. exists all_items. split; [reflexivity |].
      destruct all_items; [contradiction |].
      rewrite Hwritten. apply lookup_insert_eq.
Qed.

Lemma iteration_keeps_paging (page : nat) (all_items : list (gmap string value))
    (w : world) :
  keeps_paging (listing srv (requests w) (GetListing owner repo data_type page)) ->
  exists all_items' w', iteration page all_items w = (Continue, all_items', w').
Proof.
  intros (Hok & Hitems & Hquota).
  destruct (iteration page all_items w) as [[c all_items'] w'] eqn:Hit.
  destruct (iteration_summary _ _ _ _ _ _ Hit)
    as (_ & _ & _ & _ & _ & _ & _ & _ & Hstops & _).
  destruct c; [| eauto].
  destruct (Hstops eq_refl) as [Hfail | [Hempty | (remaining & Hr & Hlow)]].
  - contradiction.
  - contradiction.
  - specialize (Hquota remaining Hr). lia.
Qed.

Lemma iteration_stops_paging (page : nat) (all_items : list (gmap string value))
    (w : world) :
  stops_paging (listing srv (requests w) (GetListing owner repo data_type page)) ->
  exists all_items' w', iteration page all_items w = (Break, all_items', w').
Proof.
  intros Hstops.
  destruct (iteration page all_items w) as [[c all_items'] w'] eqn:Hit.
  destruct (iteration_summary _ _ _ _ _ _ Hit)
    as (_ & _ & _ & _ & _ & _ & _ & Hkeeps & _).
  destruct c; [eauto |].
  destruct (Hkeeps eq_refl) as (Hok & Hitems & Hquota).
  destruct Hstops as [Hfail | [Hempty | (remaining & Hr & Hlow)]].
  - contradiction.
  - contradiction.
  - specialize (Hquota remaining Hr). lia.
Qed.

(** X14.  The paging loop has no bound of its own.  Against a server whose
    listing always answers with success, with items, and with no quota
    below the floor, a fetch that finds no cache does not return, however
    many passes it is allowed. *)
Theorem fetch_unbounded_against_endless_listing (fuel : nat) (w : world) :
  (forall history page,
     keeps_paging (listing srv history (GetListing owner repo data_type page))) ->
  files w !! save_path = None ->
  fetch fuel w = None.
Proof.
  intros Hendless Hnone. unfold fetch_github_data. rewrite Hnone.
  assert (Hloop : forall page all_items w0, loop fuel page all_items w0 = None).
  { induction fuel as [| fuel' IH]; intros page all_items w0; [reflexivity |].
    cbn [paging_loop].
    destruct (iteration_keeps_paging page all_items w0 (Hendless _ _))
      as (all_items' & w' & ->).
    apply IH. }
  now rewrite Hloop.
Qed.

Lemma loop_fuel_monotone (fuel fuel' page : nat)
    (all_items : list (gmap string value)) (w : world)
    (result : list (gmap string value)) (w' : world) :
  loop fuel page all_items w = Some (result, w') ->
  fuel <= fuel' ->
  loop fuel' page all_items w = Some (result, w').
Proof.
  revert fuel' page all_items w.
  induction fuel as [| fuel IH]; intros fuel' page all_items w; [discriminate |].
  intros Hloop Hle. destruct fuel' as [| fuel']; [lia |].
  cbn [paging_loop] in *.
  destruct (iteration page all_items w) as [[[|] all_items1] w1]; [exact Hloop |].
  apply (IH fuel' _ _ _ Hloop). lia.
Qed.

(** X15.  If the listing endpoint, whatever was asked before, answers the
    request for some page [p] with a response that stops the paging (no
    success, no items, or a quota below the floor), then a fetch that
    finds no cache returns, and [p] passes are enough: with [p] passes or
    more allowed, the fetch returns the same items and leaves the same
    world. *)
Theorem fetch_returns_by_stopping_page (p : nat) (w : world) :
  1 <= p ->
  (forall history,
     stops_paging (listing srv history (GetListing owner repo data_type p))) ->
  files w !! save_path = None ->
  exists items w',
    forall fuel, p <= fuel -> fetch fuel w = Some (Return (items_value items), w').
Proof.
  intros Hp Hstops Hnone.
  assert (Hloop : forall f q all_items w0,
            q <= p -> p < q + f ->
            exists result w', loop f q all_items w0 = Some (result, w')).
  { induction f as [| f IH]; intros q all_items w0 Hq Hf; [lia |].
    cbn [paging_loop].
    destruct (iteration q all_items w0) as [[c all_items1] w1] eqn:Hit.
    destruct c; [eauto |].
    destruct (Nat.eq_dec q p) as [-> | Hlt].
    - destruct (iteration_stops_paging p all_items w0 (Hstops _))
        as (a & b & Hbreak).
      rewrite Hbreak in Hit. discriminate.
    - apply IH; lia. }
  destruct (Hloop p 1 [] w Hp ltac:(lia)) as (result & w' & Hrun).
  exists result, w'. intros fuel Hfuel.
  unfold fetch_github_data. rewrite Hnone.
  now rewrite (loop_fuel_monotone p fuel _ _ _ _ _ Hrun Hfuel).
Qed.

(** X16.  A page that arrives with a quota below the floor is kept.  Let [n]
    pages have been fetched.  If the next listing response is a success
    with items and a remaining quota under 10, the fetch ends with that
    pass, with any fuel above [n]: it returns the items accumulated
    together with the items of this page, one for one, it has stored
    exactly that in the cache, and it has asked for no further page. *)
Theorem fetch_keeps_page_below_quota_floor (fuel n page : nat)
    (all_items : list (gmap string value)) (w0 w : world) (remaining : Z) :
  files w0 !! save_path = None ->
  pages_fetched srv owner repo data_type save_path fetch_comments_flag
    n (1, [], w0) (page, all_items, w) ->
  let response := listing srv (requests w) (GetListing owner repo data_type page) in
  status_code response = 200%Z ->
  json response <> [] ->
  ratelimit_remaining response = Some remaining ->
  (remaining < 10)%Z ->
  n < fuel ->
  exists added w',
    fetch fuel w0 = Some (Return (items_value (all_items ++ added)), w') /\
    length added = length (json response) /\
    files w' !! save_path = Some (JsonFile (items_value (all_items ++ added))) /\
    List.filter is_listing (requests w')
    = List.filter is_listing (requests w) ++ [GetListing owner repo data_type page].
Proof.
  intros Hnone Hfetched response Hok Hitems Hquota Hlow Hfuel.
  destruct (iteration_stops_paging page all_items w) as (all_items' & w' & Hit).
  { right. right. exists remaining. auto. }
  destruct (iteration_summary _ _ _ _ _ _ Hit)
    as (added & extra & -> & Hreq & Hfilter & _ & _ & _ & _ & Hlen).
  specialize (Hlen Hok).
  exists added, w'. split; [| split; [exact Hlen | split]].
  - unfold fetch_github_data. rewrite Hnone.
    pose proof (FetchTheorems.loop_after_fetched srv owner repo data_type save_path
                  fetch_comments_flag n fuel _ _ _ _ Hfetched Hit Hfuel) as Hloop.
    cbn [fst snd] in Hloop. now rewrite Hloop.
  - destruct (iteration_written _ _ _ _ _ _ Hit) as [(_ & Hsame & _) | [_ Hwritten]].
    + exfalso. apply Hitems.
      assert (Hnil : added = []).
      { apply (app_inv_head all_items). now rewrite app_nil_r. }
      rewrite Hnil in Hlen. cbn in Hlen. symmetry in Hlen.
      exact (nil_length_inv _ Hlen).
    + rewrite Hwritten. apply lookup_insert_eq.
  - rewrite Hreq, List.filter_app. cbn [List.filter is_listing].
    now rewrite Hfilter.
Qed.

Lemma items_value_inj (xs ys : list (gmap string value)) :
  items_value xs = items_value ys -> xs = ys.
Proof.
  unfold items_value. intros [= H]. revert ys H.
  induction xs as [| x xs IH]; intros [| y ys] H; try discriminate; [reflexivity |].
  cbn in H. injection H as -> H. now rewrite (IH _ H).
Qed.

Lemma iteration_delivers (page : nat) (all_items : list (gmap string value))
    (w : world) (c : loop_ctl) (all_items' : list (gmap string value)) (w' : world) :
  fetch_comments_flag = false ->
  page_iteration srv owner repo data_type save_path fetch_comments_flag
    page all_items w = (c, all_items', w') ->
  Forall (delivered srv owner repo data_type) all_items ->
  Forall (delivered srv owner repo data_type) all_items'.
Proof.
  intros -> Hit Hall. revert Hit. unfold page_iteration, requests_get_listing.
  set (response := listing srv (requests w) (GetListing owner repo data_type page)).
  destruct (negb (status_code response =? 200)%Z); [now intros [= _ <- _] |].
  destruct (json response) as [| item items] eqn:Hitems; [now intros [= _ <- _] |].
  intros H.
  assert (Hacc : all_items' = all_items ++ item :: items).
  { destruct (ratelimit_remaining response) as [remaining |];
      [destruct (remaining <? 10)%Z |]; now inversion H. }
  rewrite Hacc. apply Forall_app. split; [exact Hall |].
  apply Forall_forall. intros x Hx. exists (requests w), page.
  fold response. now rewrite Hitems.
Qed.

(** X17.  With comments skipped, a fetch returns the items as the listing
    responses carry them: every item it returns is an item of some listing
    response, unchanged, its ["comments"] included, which for an issue is
    the number of its comments and no thread. *)
Theorem fetch_without_comments_keeps_items (fuel : nat) (w w' : world)
    (items : list (gmap string value)) :
  fetch_comments_flag = false ->
  files w !! save_path = None ->
  fetch fuel w = Some (Return (items_value items), w') ->
  Forall (delivered srv owner repo data_type) items.
Proof.
  intros Hflag Hnone Hfetch. unfold fetch_github_data in Hfetch.
  rewrite Hnone in Hfetch.
  destruct (loop fuel 1 [] w) as [[all_items w1] |] eqn:Hloop; [| discriminate].
  assert (Hitems : items_value all_items = items_value items)
    by (injection Hfetch as Heq _; unfold items_value; now rewrite Heq).
  apply items_value_inj in Hitems. subst all_items. clear Hfetch.
  assert (Hgen : forall fuel page acc w0 res w2,
            loop fuel page acc w0 = Some (res, w2) ->
            Forall (delivered srv owner repo data_type) acc ->
            Forall (delivered srv owner repo data_type) res).
  { clear -Hflag. induction fuel as [| fuel IH]; intros page acc w0 res w2;
      [discriminate |].
    cbn [paging_loop].
    destruct (iteration page acc w0) as [[c acc1] w1] eqn:Hit.
    intros Hrun Hacc.
    pose proof (iteration_delivers _ _ _ _ _ _ Hflag Hit Hacc) as Hacc1.
    destruct c; [now injection Hrun as <- _ | exact (IH _ _ _ _ _ Hrun Hacc1)]. }
  exact (Hgen _ _ _ _ _ _ Hloop (List.Forall_nil _)).
Qed.

End Fetch.

(** ** The theorems at work on concrete runs *)

Lemma fetch_request_accounting_witness :
  exists m items extra w',
    fetch_github_data srv_outage 5 "stanfordnlp" "dspy" "issues" cache_path true w_fresh
      = Some (Return (items_value items), w') /\
    1 <= m <= 5 /\
    requests w' = extra /\
    List.filter is_listing extra = listing_pages "stanfordnlp" "dspy" "issues" 1 m /\
    length extra = m + comment_requests true "issues" items.
Proof.
  destruct (fetch_github_data srv_outage 5 "stanfordnlp" "dspy" "issues" cache_path
              true w_fresh) as [[[data | e] w'] |] eqn:Hrun;
    [| vm_compute in Hrun; discriminate Hrun | vm_compute in Hrun; discriminate Hrun].
  destruct (fetch_request_accounting srv_outage "stanfordnlp" "dspy" "issues"
              cache_path true 5 w_fresh w' data eq_refl Hrun)
    as (m & items & extra & Hm & -> & Hreq & Hfilter & Hlen).
  exists m, items, extra, w'. auto.
Defined.

Lemma fetch_writes_its_cache_only_witness :
  exists items w',
    fetch_github_data srv_low_quota 5 "stanfordnlp" "dspy" "issues" cache_path false
      {| files := {[ "tasks/github_qa/dspy/pr.json" := JsonFile (VList []) ]};
         requests := [] |}
    = Some (Return (items_value items), w') /\
    files w' !! "tasks/github_qa/dspy/pr.json" = Some (JsonFile (VList [])) /\
    match items with
    | [] => files w' !! cache_path = None
    | _ => files w' !! cache_path = Some (JsonFile (items_value items))
    end.
Proof.
  destruct (fetch_github_data srv_low_quota 5 "stanfordnlp" "dspy" "issues" cache_path
              false
              {| files := {[ "tasks/github_qa/dspy/pr.json" := JsonFile (VList []) ]};
                 requests := [] |}) as [[o w'] |] eqn:Hrun;
    [| vm_compute in Hrun; discriminate Hrun].
  destruct (fetch_writes_its_cache_only srv_low_quota "stanfordnlp" "dspy" "issues"
              cache_path false 5 _ _ _ Hrun) as [Hframe Hcache].
  destruct (Hcache eq_refl) as (items & -> & Hstored).
  exists items, w'. split; [reflexivity |]. split; [| exact Hstored].
  rewrite Hframe; [reflexivity | discriminate].
Defined.

Lemma fetch_unbounded_against_endless_listing_witness :
  fetch_github_data srv_endless 1000 "stanfordnlp" "dspy" "issues" cache_path true w_fresh
  = None.
Proof.
  apply (fetch_unbounded_against_endless_listing srv_endless "stanfordnlp" "dspy"
           "issues" cache_path true 1000 w_fresh).
  - intros history page. split; [reflexivity | split; [discriminate |]].
    intros remaining [= <-]. lia.
  - reflexivity.
Defined.

Lemma fetch_returns_by_stopping_page_witness :
  exists items w',
    forall fuel, 3 <= fuel ->
      fetch_github_data srv_outage fuel "stanfordnlp" "dspy" "issues" cache_path true
        w_fresh = Some (Return (items_value items), w').
Proof.
  apply (fetch_returns_by_stopping_page srv_outage "stanfordnlp" "dspy" "issues"
           cache_path true 3 w_fresh).
  - lia.
  - intros history. left. discriminate.
  - reflexivity.
Defined.

Lemma fetch_keeps_page_below_quota_floor_witness :
  exists added w',
    fetch_github_data srv_low_quota 5 "stanfordnlp" "dspy" "issues" cache_path false
      w_fresh = Some (Return (items_value ([] ++ added)), w') /\
    length added = 2 /\
    files w' !! cache_path = Some (JsonFile (items_value ([] ++ added))) /\
    List.filter is_listing (requests w') = [ GetListing "stanfordnlp" "dspy" "issues" 1 ].
Proof.
  apply (fetch_keeps_page_below_quota_floor srv_low_quota "stanfordnlp" "dspy" "issues"
           cache_path false 5 0 1 [] w_fresh w_fresh 9).
  - reflexivity.
  - apply fetched_none.
  - reflexivity.
  - discriminate.
  - reflexivity.
  - lia.
  - lia.
Defined.

Lemma fetch_without_comments_keeps_items_witness :
  Forall (delivered srv_low_quota "stanfordnlp" "dspy" "issues") cached_items.
Proof.
  apply (fetch_without_comments_keeps_items srv_low_quota "stanfordnlp" "dspy" "issues"
           cache_path false 5 w_fresh
           {| files := {[ cache_path := JsonFile (items_value cached_items) ]};
              requests := [ GetListing "stanfordnlp" "dspy" "issues" 1 ] |}
           cached_items); reflexivity.
Defined.

End FetchExtras.

(* ===================================================================== *)
(** * Further theorems: generate.py, context and generation *)
(* ===================================================================== *)

Module GenerateExtras.
Import Generate Props MoreProps Fixtures MoreFixtures.

Lemma substring_prefix_idempotent (n : nat) (s : string) :
  substring 0 n (substring 0 n s) = substring 0 n s.
Proof.
  revert s. induction n as [| n IH]; intros [| c s]; cbn; try reflexivity.
  now rewrite IH.
Qed.

Section Rendering.
Variable repr : value -> string.

Lemma default_or_lookup_insert_ne (d : gmap string value) (key key' : string)
    (v default : value) :
  key <> key' ->
  default_or_lookup (<[key' := v]> d) key default = default_or_lookup d key default.
Proof. intros Hne. unfold default_or_lookup. now rewrite lookup_insert_ne by congruence. Qed.

Lemma default_or_lookup_insert_eq (d : gmap string value) (key : string)
    (v default : value) :
  default_or_lookup (<[key := v]> d) key default = v.
Proof. unfold default_or_lookup. now rewrite lookup_insert_eq. Qed.

Lemma default_or_lookup_delete_ne (d : gmap string value) (key key' : string)
    (default : value) :
  key <> key' ->
  default_or_lookup (delete key' d) key default = default_or_lookup d key default.
Proof. intros Hne. unfold default_or_lookup. now rewrite lookup_delete_ne by congruence. Qed.

Lemma default_or_lookup_delete_eq (d : gmap string value) (key : string)
    (default : value) :
  default_or_lookup (delete key d) key default = default.
Proof. unfold default_or_lookup. now rewrite lookup_delete_eq. Qed.

Lemma format_comment_clip (comment : value) :
  format_comment repr (clip_body comment) = format_comment repr comment.
Proof.
  destruct comment as [| | | | | | d]; try reflexivity.
  unfold clip_body. destruct (d !! "body") as [[| | | | s | |] |] eqn:Hbody;
    try reflexivity.
  unfold format_comment. cbn [get obind].
  rewrite (default_or_lookup_insert_ne d "user") by discriminate.
  destruct (default_or_lookup d "user" (VDict ∅)) as [| | | | | | user];
    try reflexivity.
  cbn [get obind].
  rewrite (default_or_lookup_insert_ne d "created_at") by discriminate.
  rewrite default_or_lookup_insert_eq. unfold default_or_lookup at 3.
  rewrite Hbody. cbn [slice obind str].
  now rewrite substring_prefix_idempotent.
Qed.

Lemma for_comments_clip (comments : list value) (acc : string) :
  for_comments repr (clip_body <$> comments) acc = for_comments repr comments acc.
Proof.
  revert acc. induction comments as [| c rest IH]; intros acc; [reflexivity |].
  cbn [fmap list_fmap for_comments]. rewrite format_comment_clip.
  destruct (format_comment repr c); [| reflexivity]. cbn [obind]. apply IH.
Qed.

Lemma comments_xml_clip (item : gmap string value) :
  comments_xml repr (clip_item item) = comments_xml repr item.
Proof.
  unfold clip_item.
  destruct (item !! "comments") as [[| | | | | comments |] |] eqn:Hc; try reflexivity.
  unfold comments_xml. rewrite lookup_insert_eq, Hc.
  destruct comments as [| c comments]; [reflexivity |].
  assert (Ht : truthy (VList (clip_body <$> take 10 (c :: comments))) = true)
    by reflexivity.
  rewrite Ht. cbn [truthy slice obind iter].
  rewrite <- fmap_take, take_take. change (10 `min` 10) with 10.
  now rewrite for_comments_clip.
Qed.

Lemma clip_item_other (item : gmap string value) (key : string) (default : value) :
  key <> "comments" ->
  default_or_lookup (clip_item item) key default = default_or_lookup item key default.
Proof.
  intros Hkey. unfold clip_item.
  destruct (item !! "comments") as [[| | | | | comments |] |]; try reflexivity.
  now apply default_or_lookup_insert_ne.
Qed.

Lemma format_pr_clip (item : gmap string value) :
  format_pr_as_xml repr (clip_item item) = format_pr_as_xml repr item.
Proof.
  unfold format_pr_as_xml. rewrite comments_xml_clip.
  destruct (comments_xml repr item) as [block | e]; [| reflexivity].
  cbn [obind]. rewrite (clip_item_other item "user") by discriminate.
  destruct (get (default_or_lookup item "user" (VDict ∅)) "login" (VStr "unknown"));
    [| reflexivity].
  cbn [obind]. now rewrite !clip_item_other by discriminate.
Qed.

Lemma format_issue_clip (item : gmap string value) :
  format_issue_as_xml repr (clip_item item) = format_issue_as_xml repr item.
Proof.
  unfold format_issue_as_xml.
  assert (Hpr : clip_item item !! "pull_request" = item !! "pull_request").
  { unfold clip_item.
    destruct (item !! "comments") as [[| | | | | comments |] |]; try reflexivity.
    now rewrite lookup_insert_ne by discriminate. }
  rewrite Hpr. destruct (item !! "pull_request"); [reflexivity |].
  rewrite comments_xml_clip.
  destruct (comments_xml repr item) as [block | e]; [| reflexivity].
  cbn [obind]. rewrite (clip_item_other item "user") by discriminate.
  destruct (get (default_or_lookup item "user" (VDict ∅)) "login" (VStr "unknown"))
    as [author | e]; [| reflexivity].
  cbn [obind]. rewrite (clip_item_other item "labels") by discriminate.
  destruct (iter (default_or_lookup item "labels" (VList []))) as [labels | e];
    [| reflexivity].
  cbn [obind].
  destruct (omapM (fun label => subscript label "name") labels) as [names | e];
    [| reflexivity].
  cbn [obind]. destruct (join ", " names) as [joined | e]; [| reflexivity].
  cbn [obind]. now rewrite !clip_item_other by discriminate.
Qed.

(** X18.  What a formatter makes of an item depends on nothing past the
    tenth comment and on nothing past the 500th character of a comment
    body.  The item cut down to that gives the same outcome, block for
    block and exception for exception, so a comment after the tenth can
    neither show up in a block nor make the rendering fail. *)
Theorem formatters_read_clipped_item (item : gmap string value) :
  format_pr_as_xml repr (clip_item item) = format_pr_as_xml repr item /\
  format_issue_as_xml repr (clip_item item) = format_issue_as_xml repr item.
Proof. split; [apply format_pr_clip | apply format_issue_clip]. Qed.

Lemma comments_xml_insert_other (item : gmap string value) (key : string) (v : value) :
  key <> "comments" ->
  comments_xml repr (<[key := v]> item) = comments_xml repr item.
Proof.
  intros Hkey. unfold comments_xml. now rewrite lookup_insert_ne by congruence.
Qed.

Lemma comments_xml_delete_other (item : gmap string value) (key : string) :
  key <> "comments" ->
  comments_xml repr (delete key item) = comments_xml repr item.
Proof.
  intros Hkey. unfold comments_xml. now rewrite lookup_delete_ne by congruence.
Qed.

Local Ltac same_frame :=
  repeat first
    [ rewrite default_or_lookup_insert_eq
    | rewrite default_or_lookup_delete_eq
    | rewrite default_or_lookup_insert_ne by discriminate
    | rewrite default_or_lookup_delete_ne by discriminate
    | rewrite lookup_insert_ne by discriminate
    | rewrite lookup_delete_ne by discriminate
    | rewrite comments_xml_insert_other by discriminate
    | rewrite comments_xml_delete_other by discriminate ].

Local Ltac step_frame :=
  same_frame;
  match goal with
  | |- obind ?o _ = obind ?o _ => destruct o; [cbn [obind] | reflexivity]
  | |- match ?x with _ => _ end = match ?x with _ => _ end => destruct x
  | |- _ => reflexivity
  end.

(** X19.  A key that is present with [null] is not given its default.  A
    pull request or issue whose body or title is [null] is rendered with
    the word [None] in that place; only an item without the key gets
    "No description" or "No title". *)
Theorem null_fields_render_as_None (item : gmap string value) (key : string) :
  key = "body" \/ key = "title" ->
  format_pr_as_xml repr (<[key := VNone]> item)
    = format_pr_as_xml repr (<[key := VStr "None"]> item) /\
  format_issue_as_xml repr (<[key := VNone]> item)
    = format_issue_as_xml repr (<[key := VStr "None"]> item) /\
  format_pr_as_xml repr (delete "body" (delete "title" item))
    = format_pr_as_xml repr
        (<["body" := VStr "No description"]> (<["title" := VStr "No title"]> item)) /\
  format_issue_as_xml repr (delete "body" (delete "title" item))
    = format_issue_as_xml repr
        (<["body" := VStr "No description"]> (<["title" := VStr "No title"]> item)).
Proof.
  intros Hkey. unfold format_pr_as_xml, format_issue_as_xml.
  destruct Hkey as [-> | ->]; repeat split; repeat step_frame.
Qed.

(** ** The context of a generation call *)

Lemma omapM_fmap_same {A B} (f : A -> outcome B) (g : A -> A) (xs : list A) :
  (forall x, f (g x) = f x) -> omapM f (g <$> xs) = omapM f xs.
Proof.
  intros Hfg. induction xs as [| x xs IH]; [reflexivity |].
  cbn [fmap list_fmap omapM]. rewrite Hfg. cbn [fmap] in IH. now rewrite IH.
Qed.

Lemma take_clipped (n : nat) (items : list (gmap string value)) :
  take n (clip_item <$> take n items) = clip_item <$> take n items.
Proof. rewrite <- fmap_take, take_take. now rewrite Nat.min_id. Qed.

Lemma generation_inputs_clipped (task_type task_description : string)
    (prs issues examples : list (gmap string value)) (repo_name : string)
    (num_tasks : Z) :
  generation_inputs repr task_type task_description
    (clip_item <$> take 30 prs) (clip_item <$> take 30 issues) examples
    repo_name num_tasks
  = generation_inputs repr task_type task_description prs issues examples
      repo_name num_tasks.
Proof.
  unfold generation_inputs. rewrite !take_clipped.
  rewrite (omapM_fmap_same (format_pr_as_xml repr) clip_item) by apply format_pr_clip.
  rewrite (omapM_fmap_same (format_issue_as_xml repr) clip_item)
    by apply format_issue_clip.
  reflexivity.
Qed.

(** X20.  What a generation call is given, and so what it returns, depends
    on the first 30 pull requests and the first 30 issues only, and in
    each of them on the first ten comments and the first 500 characters of
    each body only: the call on the lists cut down to that has the same
    outcome and the same effect. *)
Theorem generation_reads_bounded_context (L : lm)
    (task_type task_description : string)
    (prs issues examples : list (gmap string value)) (repo_name : string)
    (num_tasks : Z) (k : nat) :
  generate_tasks_for_type repr L task_type task_description
    (clip_item <$> take 30 prs) (clip_item <$> take 30 issues) examples
    repo_name num_tasks k
  = generate_tasks_for_type repr L task_type task_description prs issues examples
      repo_name num_tasks k.
Proof.
  unfold generate_tasks_for_type. now rewrite generation_inputs_clipped.
Qed.

Lemma format_issue_blank_iff (item : gmap string value) (out : string) :
  format_issue_as_xml repr item = Return out ->
  String.eqb out EmptyString = is_pull_request item.
Proof.
  unfold format_issue_as_xml, is_pull_request.
  destruct (item !! "pull_request"); [now intros [= <-] |].
  destruct (comments_xml repr item) as [block | e]; [| discriminate].
  cbn [obind].
  destruct (get (default_or_lookup item "user" (VDict ∅)) "login" (VStr "unknown"))
    as [author | e]; [| discriminate].
  cbn [obind].
  destruct (iter (default_or_lookup item "labels" (VList []))) as [labels | e];
    [| discriminate].
  cbn [obind].
  destruct (omapM (fun label => subscript label "name") labels) as [names | e];
    [| discriminate].
  cbn [obind]. destruct (join ", " names) as [joined | e]; [| discriminate].
  cbn [obind]. now intros [= <-].
Qed.

Lemma issue_blocks_of_issues (items : list (gmap string value)) (blocks : list string) :
  omapM (format_issue_as_xml repr) items = Return blocks ->
  omapM (format_issue_as_xml repr)
    (List.filter (fun item => negb (is_pull_request item)) items)
  = Return (List.filter (fun xml => negb (String.eqb xml EmptyString)) blocks).
Proof.
  revert blocks. induction items as [| item rest IH]; intros blocks.
  { now intros [= <-]. }
  cbn [omapM].
  destruct (format_issue_as_xml repr item) as [out | e] eqn:Hout; [| discriminate].
  cbn [obind].
  destruct (omapM (format_issue_as_xml repr) rest) as [outs | e]; [| discriminate].
  cbn [obind]. intros [= <-]. specialize (IH outs eq_refl).
  cbn [List.filter]. rewrite (format_issue_blank_iff item out Hout).
  destruct (is_pull_request item); cbn [negb]; [exact IH |].
  cbn [omapM]. rewrite Hout. cbn [obind]. now rewrite IH.
Qed.

(** X21.  The issue context of a generation call is made of the blocks of
    those among the first 30 items of the issue list that are no pull
    requests, in order, one per line group.  Pull requests in the issue
    list are left out of the context, but they count towards the 30: an
    issue behind 30 items is never in the context, also when some of the
    30 are pull requests. *)
Theorem issue_context_skips_pull_requests (task_type task_description : string)
    (prs issues examples : list (gmap string value)) (repo_name : string)
    (num_tasks : Z) (inputs : generator_input) :
  generation_inputs repr task_type task_description prs issues examples
    repo_name num_tasks = Return inputs ->
  exists blocks,
    omapM (format_issue_as_xml repr)
      (List.filter (fun item => negb (is_pull_request item)) (take 30 issues))
    = Return blocks /\
    in_issues inputs = String.concat nl blocks /\
    length blocks <= 30.
Proof.
  unfold generation_inputs.
  destruct (omapM (format_pr_as_xml repr) (take 30 prs)) as [pr_xmls | e];
    [| discriminate].
  cbn [obind].
  destruct (omapM (format_issue_as_xml repr) (take 30 issues)) as [issue_xmls | e]
    eqn:Hissues; [| discriminate].
  cbn [obind].
  destruct (format_examples repr 0 examples) as [lines | e]; [| discriminate].
  cbn [obind]. intros [= <-]. cbn [in_issues].
  eexists. split; [exact (issue_blocks_of_issues _ _ Hissues) |].
  split; [reflexivity |].
  assert (Hlen : length issue_xmls = length (take 30 issues)).
  { clear -Hissues. revert issue_xmls Hissues.
    induction (take 30 issues) as [| item rest IH]; intros issue_xmls.
    - now intros [= <-].
    - cbn [omapM]. destruct (format_issue_as_xml repr item); [| discriminate].
      cbn [obind]. destruct (omapM (format_issue_as_xml repr) rest) as [outs |];
        [| discriminate].
      cbn [obind]. intros [= <-]. cbn. now rewrite (IH outs eq_refl). }
  pose proof (List.filter_length_le
                (fun xml => negb (String.eqb xml EmptyString)) issue_xmls) as Hle.
  rewrite Hlen, length_take in Hle. lia.
Qed.

Lemma omapM_raises {A B} (f : A -> outcome B) (xs : list A) (i : nat) (x : A) (e : exn) :
  xs !! i = Some x -> f x = Raise e -> exists e', omapM f xs = Raise e'.
Proof.
  revert i. induction xs as [| y ys IH]; intros i Hx Hf; [discriminate |].
  cbn [omapM]. destruct i as [| i].
  - injection Hx as ->. rewrite Hf. now exists e.
  - destruct (f y) as [b | e1]; [| now exists e1]. cbn [obind].
    destruct (IH i Hx Hf) as [e' ->]. now exists e'.
Qed.

(** X22.  The context is rendered outside the [try].  When one of the first
    30 items of the issue list is an issue (no pull request) that carries
    a count of comments that is not zero where a thread is expected, as
    the listing endpoint delivers it and as the fetch stores it when
    comments are skipped, the generation call raises: no task list is
    returned, and neither capability is called. *)
Theorem comment_count_breaks_generation (L : lm)
    (task_type task_description : string)
    (prs issues examples : list (gmap string value)) (repo_name : string)
    (num_tasks : Z) (k i : nat) (item : gmap string value) (count : Z) :
  take 30 issues !! i = Some item ->
  item !! "pull_request" = None ->
  item !! "comments" = Some (VInt count) ->
  count <> 0%Z ->
  exists e,
    generate_tasks_for_type repr L task_type task_description prs issues examples
      repo_name num_tasks k = (Raise e, k).
Proof.
  intros Hitem Hissue Hcount Hne.
  assert (Hraise : format_issue_as_xml repr item
                   = Raise (TypeError "object is not subscriptable")).
  { unfold format_issue_as_xml, comments_xml. rewrite Hissue, Hcount. cbn [truthy].
    destruct (Z.eqb_spec count 0) as [| _]; [contradiction | reflexivity]. }
  destruct (omapM_raises _ _ _ _ _ Hitem Hraise) as [e' Hissues].
  unfold generate_tasks_for_type, bind, lift, generation_inputs.
  destruct (omapM (format_pr_as_xml repr) (take 30 prs)) as [pr_xmls | e].
  - cbn [obind]. rewrite Hissues. cbn [obind]. now exists e'.
  - cbn [obind]. now exists e.
Qed.

End Rendering.

(** ** The theorems at work on concrete items *)

Lemma null_fields_render_as_None_witness :
  format_pr_as_xml repr0 (<["body" := VNone]> (gh_item 7 "Rework the cache"))
  = format_pr_as_xml repr0 (<["body" := VStr "None"]> (gh_item 7 "Rework the cache")).
Proof.
  apply (null_fields_render_as_None repr0 (gh_item 7 "Rework the cache") "body").
  now left.
Defined.

Lemma issue_context_skips_pull_requests_witness :
  exists inputs,
    generation_inputs repr0 "bug_patterns" "Recurring problems." [] crowded_issues
      [example_task] "dspy" 10 = Return inputs /\
    in_issues inputs = EmptyString.
Proof.
  destruct (generation_inputs repr0 "bug_patterns" "Recurring problems." []
              crowded_issues [example_task] "dspy" 10) as [inputs | e] eqn:Hrun;
    [| vm_compute in Hrun; discriminate Hrun].
  exists inputs. split; [reflexivity |].
  destruct (issue_context_skips_pull_requests repr0 _ _ _ _ _ _ _ _ Hrun)
    as (blocks & Hblocks & -> & _).
  vm_compute in Hblocks. now injection Hblocks as <-.
Defined.

Lemma comment_count_breaks_generation_witness :
  exists e,
    generate_tasks_for_type repr0 L_dedup_fails "bug_patterns" "Recurring problems."
      [] [counted_issue] [example_task] "dspy" 10 0 = (Raise e, 0).
Proof.
  apply (comment_count_breaks_generation repr0 L_dedup_fails "bug_patterns"
           "Recurring problems." [] [counted_issue] [example_task] "dspy" 10 0
           0 counted_issue 3); [reflexivity | reflexivity | reflexivity | discriminate].
Defined.

End GenerateExtras.

(* ===================================================================== *)
(** * Further theorems: generate.py, the repository URL *)
(* ===================================================================== *)

Module UrlExtras.
Import PyStr GenerateMain Props MoreProps Fixtures MoreFixtures.

Lemma split_without_separator (c : Ascii.ascii) (s : string) :
  occurs c s = false -> split c s = [s].
Proof.
  induction s as [| a rest IH]; [reflexivity |].
  cbn [occurs split]. destruct (Ascii.eqb a c); [discriminate |].
  cbn [orb]. intros Hrest. now rewrite (IH Hrest).
Qed.

Lemma split_at_separator (c : Ascii.ascii) (x y : string) :
  occurs c x = false ->
  split c (x +:+ String c y) = x :: split c y.
Proof.
  induction x as [| a rest IH].
  - intros _. change (EmptyString +:+ String c y) with (String c y).
    cbn [split]. now rewrite Ascii.eqb_refl.
  - cbn [occurs]. destruct (Ascii.eqb a c) eqn:Ha; [discriminate |].
    cbn [orb]. intros Hrest.
    change ((String a rest) +:+ String c y) with (String a (rest +:+ String c y)).
    cbn [split]. rewrite Ha. now rewrite (IH Hrest).
Qed.

Lemma split_with_separator (c : Ascii.ascii) (s : string) :
  occurs c s = true -> exists first second rest, split c s = first :: second :: rest.
Proof.
  induction s as [| a rest IH]; [discriminate |].
  cbn [occurs split]. destruct (Ascii.eqb a c).
  - intros _. destruct rest as [| b rest'].
    + now exists EmptyString, EmptyString, [].
    + assert (Hne : exists p ps, split c (String b rest') = p :: ps).
      { cbn [split]. destruct (Ascii.eqb b c); [eauto |].
        destruct (split c rest'); eauto. }
      destruct Hne as (p & ps & ->). eauto.
  - cbn [orb]. intros Hrest. destruct (IH Hrest) as (p & q & ps & ->). eauto.
Qed.

Lemma rstrip_without (c : Ascii.ascii) (s : string) :
  occurs c s = false -> rstrip c s = s.
Proof.
  induction s as [| a rest IH]; [reflexivity |].
  cbn [occurs rstrip]. destruct (Ascii.eqb a c); [discriminate |].
  cbn [orb]. intros Hrest. rewrite (IH Hrest). now destruct rest.
Qed.

Lemma rstrip_head (c a : Ascii.ascii) (rest : string) :
  rstrip c (String a rest) = EmptyString \/
  exists kept, rstrip c (String a rest) = String a kept.
Proof.
  cbn [rstrip]. destruct (rstrip c rest); [| eauto].
  destruct (Ascii.eqb a c); eauto.
Qed.

Lemma rstrip_app (c : Ascii.ascii) (x y : string) :
  rstrip c (x +:+ y)
  = match rstrip c y with
    | EmptyString => rstrip c x
    | kept => x +:+ kept
    end.
Proof.
  induction x as [| a rest IH].
  - change (EmptyString +:+ y) with y. cbn [rstrip]. now destruct (rstrip c y).
  - change ((String a rest) +:+ y) with (String a (rest +:+ y)).
    cbn [rstrip]. rewrite IH. destruct (rstrip c y) as [| b kept]; [reflexivity |].
    change ((String a rest) +:+ String b kept) with (String a (rest +:+ String b kept)).
    now destruct rest.
Qed.

Lemma occurs_app (c : Ascii.ascii) (x y : string) :
  occurs c (x +:+ y) = occurs c x || occurs c y.
Proof.
  induction x as [| a rest IH]; [reflexivity |].
  change ((String a rest) +:+ y) with (String a (rest +:+ y)).
  cbn [occurs]. rewrite IH. now rewrite orb_assoc.
Qed.

Section Parse.
Variable urlparse_path : string -> outcome string.

(** X23.  For a URL whose path is a slash, an owner, a slash, a repository
    name, and then nothing or a slash and anything, [parse_github_url]
    returns the owner and the name: one trailing [.git] of the URL has gone
    before the path is read, trailing slashes do not count, and further
    path segments are ignored. *)
Theorem parse_github_url_owner_and_repo (url owner repo tail : string) :
  segment owner -> segment repo ->
  tail = EmptyString \/ (exists more, tail = String slash more) ->
  urlparse_path (without_git_suffix url)
    = Return (String slash (owner +:+ String slash (repo +:+ tail))) ->
  parse_github_url urlparse_path url = Return (owner, repo).
Proof.
  intros [Howner Hno_owner] [Hrepo Hno_repo] Htail Hpath.
  unfold parse_github_url. unfold without_git_suffix in Hpath. rewrite Hpath.
  cbn [obind]. unfold strip.
  assert (Hl : lstrip slash (String slash (owner +:+ String slash (repo +:+ tail)))
               = owner +:+ String slash (repo +:+ tail)).
  { cbn [lstrip]. rewrite Ascii.eqb_refl.
    destruct owner as [| a owner']; [contradiction |].
    cbn [occurs] in Hno_owner. apply orb_false_elim in Hno_owner as [Ha _].
    change ((String a owner') +:+ String slash (repo +:+ tail))
      with (String a (owner' +:+ String slash (repo +:+ tail))).
    cbn [lstrip]. now rewrite Ha. }
  rewrite Hl.
  assert (Hr : exists tail',
            rstrip slash (owner +:+ String slash (repo +:+ tail))
            = owner +:+ String slash (repo +:+ tail') /\
            (tail' = EmptyString \/ exists more, tail' = String slash more)).
  { change (owner +:+ String slash (repo +:+ tail))
      with (owner +:+ (String slash EmptyString +:+ (repo +:+ tail))).
    rewrite <- !GenerateTheorems.append_assoc. rewrite rstrip_app.
    destruct Htail as [-> | [more ->]].
    - cbn [rstrip]. rewrite rstrip_app, (rstrip_without slash repo Hno_repo).
      exists EmptyString. split; [| now left].
      rewrite GenerateTheorems.append_empty_r.
      destruct repo; [contradiction |].
      now rewrite !GenerateTheorems.append_assoc.
    - destruct (rstrip_head slash slash more) as [-> | [kept ->]].
      + rewrite rstrip_app, (rstrip_without slash repo Hno_repo).
        exists EmptyString. split; [| now left].
        rewrite GenerateTheorems.append_empty_r.
        destruct repo; [contradiction |].
        now rewrite !GenerateTheorems.append_assoc.
      + exists (String slash kept). split; [| right; eauto].
        now rewrite !GenerateTheorems.append_assoc. }
  destruct Hr as (tail' & -> & Htail').
  rewrite (split_at_separator slash owner _ Hno_owner).
  destruct Htail' as [-> | [more ->]].
  - rewrite GenerateTheorems.append_empty_r.
    now rewrite (split_without_separator slash repo Hno_repo).
  - now rewrite (split_at_separator slash repo more Hno_repo).
Qed.

(** X24.  [parse_github_url] raises [ValueError] exactly when the path of
    the URL, without its leading and trailing slashes, has no slash left
    (an empty path, a bare slash, an owner alone).  In every other case it
    returns a pair, whose first component is what precedes the first slash
    and is not empty; the second component is not checked and is empty
    when two slashes follow one another. *)
Theorem parse_github_url_fails_without_two_segments (url path : string) :
  urlparse_path (without_git_suffix url) = Return path ->
  (occurs slash (strip slash path) = false ->
   parse_github_url urlparse_path url
   = Raise (ValueError ("Invalid GitHub URL: " +:+ without_git_suffix url))) /\
  (occurs slash (strip slash path) = true ->
   exists owner repo,
     parse_github_url urlparse_path url = Return (owner, repo) /\
     segment owner).
Proof.
  intros Hpath. unfold parse_github_url. unfold without_git_suffix in *.
  rewrite Hpath. cbn [obind]. split; intros Hocc.
  - now rewrite (split_without_separator slash _ Hocc).
  - assert (Hparts : exists owner rest,
              strip slash path = owner +:+ String slash rest /\
              occurs slash owner = false).
    { clear -Hocc. induction (strip slash path) as [| a s IH]; [discriminate |].
      cbn [occurs] in Hocc. destruct (Ascii.eqb a slash) eqn:Ha.
      - apply Ascii.eqb_eq in Ha as ->. now exists EmptyString, s.
      - cbn [orb] in Hocc. destruct (IH Hocc) as (owner & rest & -> & Hno).
        exists (String a owner), rest. split; [reflexivity |].
        cbn [occurs]. now rewrite Ha. }
    destruct Hparts as (owner & rest & Hstrip & Hno).
    rewrite Hstrip, (split_at_separator slash owner rest Hno).
    assert (Hrest : exists repo more, split slash rest = repo :: more).
    { destruct rest as [| b rest']; [now exists EmptyString, [] |].
      cbn [split]. destruct (Ascii.eqb b slash); [eauto |].
      destruct (split slash rest'); eauto. }
    destruct Hrest as (repo & more & ->).
    exists owner, repo. split; [reflexivity |]. split; [| exact Hno].
    (* the first segment is not empty: leading slashes have been stripped *)
    intros ->. unfold strip in Hstrip.
    change (EmptyString +:+ String slash rest) with (String slash rest) in Hstrip.
    clear -Hstrip. revert Hstrip.
    generalize (rstrip_head slash).
    induction path as [| a p IH]; intros Hhead; [discriminate |].
    cbn [lstrip]. destruct (Ascii.eqb a slash) eqn:Ha; [exact (IH Hhead) |].
    destruct (Hhead a p) as [-> | [kept ->]]; [discriminate |].
    intros [= -> _]. now rewrite Ascii.eqb_refl in Ha.
Qed.

Lemma substring_app_prefix (x y : string) :
  substring 0 (String.length x) (x +:+ y) = x.
Proof.
  induction x as [| a rest IH]; [now destruct y |].
  change ((String a rest) +:+ y) with (String a (rest +:+ y)).
  cbn [String.length substring]. now rewrite IH.
Qed.

Lemma substring_whole (y : string) : substring 0 (String.length y) y = y.
Proof. induction y as [| a rest IH]; [reflexivity |]. cbn. now rewrite IH. Qed.

Lemma substring_app_suffix (x y : string) :
  substring (String.length x) (String.length y) (x +:+ y) = y.
Proof.
  induction x as [| a rest IH]; [apply substring_whole |].
  change ((String a rest) +:+ y) with (String a (rest +:+ y)).
  cbn [String.length substring]. exact IH.
Qed.

Lemma length_append (x y : string) :
  String.length (x +:+ y) = String.length x + String.length y.
Proof.
  induction x as [| a rest IH]; [reflexivity |].
  change ((String a rest) +:+ y) with (String a (rest +:+ y)).
  cbn [String.length]. now rewrite IH.
Qed.

(** X25.  A URL with [.git] at its end is parsed as the URL without it:
    the suffix is taken off, once, before anything else is looked at, and
    an error message names the URL without the suffix. *)
Theorem parse_github_url_drops_git_suffix (url : string) :
  endswith url ".git" = false ->
  parse_github_url urlparse_path (url +:+ ".git") = parse_github_url urlparse_path url.
Proof.
  intros Hno. unfold parse_github_url. rewrite Hno.
  assert (Hends : endswith (url +:+ ".git") ".git" = true).
  { unfold endswith. rewrite length_append. cbn [String.length].
    replace (String.length url + 4 - 4) with (String.length url) by lia.
    pose proof (substring_app_suffix url ".git") as Hsuffix.
    cbn [String.length] in Hsuffix. rewrite Hsuffix.
    destruct (Nat.leb_spec 4 (String.length url + 4)); [reflexivity | lia]. }
  rewrite Hends. unfold drop_last. rewrite length_append. cbn [String.length].
  replace (String.length url + 4 - 4) with (String.length url) by lia.
  now rewrite substring_app_prefix.
Qed.

End Parse.

(** ** The theorems at work on concrete URLs *)

Lemma parse_github_url_owner_and_repo_witness :
  parse_github_url path_after_host "https://github.com/stanfordnlp/dspy.git"
    = Return ("stanfordnlp", "dspy") /\
  parse_github_url path_after_host "https://github.com/stanfordnlp/dspy/issues/12/"
    = Return ("stanfordnlp", "dspy").
Proof.
  split.
  - apply (parse_github_url_owner_and_repo path_after_host
             "https://github.com/stanfordnlp/dspy.git" "stanfordnlp" "dspy" EmptyString).
    + split; [discriminate | reflexivity].
    + split; [discriminate | reflexivity].
    + now left.
    + reflexivity.
  - apply (parse_github_url_owner_and_repo path_after_host
             "https://github.com/stanfordnlp/dspy/issues/12/" "stanfordnlp" "dspy"
             "/issues/12/").
    + split; [discriminate | reflexivity].
    + split; [discriminate | reflexivity].
    + right. now exists "issues/12/".
    + reflexivity.
Defined.

Lemma parse_github_url_fails_without_two_segments_witness :
  parse_github_url path_after_host "https://github.com/stanfordnlp/"
    = Raise (ValueError "Invalid GitHub URL: https://github.com/stanfordnlp/") /\
  exists owner repo,
    parse_github_url path_after_host "https://github.com/stanfordnlp//dspy"
      = Return (owner, repo) /\ segment owner.
Proof.
  split.
  - apply (proj1 (parse_github_url_fails_without_two_segments path_after_host
                    "https://github.com/stanfordnlp/" "/stanfordnlp/" eq_refl)).
    reflexivity.
  - apply (proj2 (parse_github_url_fails_without_two_segments path_after_host
                    "https://github.com/stanfordnlp//dspy" "/stanfordnlp//dspy" eq_refl)).
    reflexivity.
Defined.

(** The repository name is not checked: two slashes in a row give an empty
    one. *)
Example parse_github_url_empty_repo :
  parse_github_url path_after_host "https://github.com/stanfordnlp//dspy"
  = Return ("stanfordnlp", EmptyString).
Proof. reflexivity. Qed.

Lemma parse_github_url_drops_git_suffix_witness :
  parse_github_url path_after_host ("https://github.com/stanfordnlp/dspy" +:+ ".git")
  = parse_github_url path_after_host "https://github.com/stanfordnlp/dspy".
Proof.
  apply (parse_github_url_drops_git_suffix path_after_host
           "https://github.com/stanfordnlp/dspy").
  reflexivity.
Defined.

End UrlExtras.

(* ===================================================================== *)
(** * Further theorems: generate.py, the run over the task types *)
(* ===================================================================== *)

Module LoopExtras.
Import PyStr Generate GenerateMain Props MoreProps Fixtures MoreFixtures.

Lemma omapM_returns {A B} (f : A -> outcome B) (xs : list A) :
  Forall (fun x => exists y, f x = Return y) xs ->
  exists ys, omapM f xs = Return ys.
Proof.
  induction 1 as [| x xs [y Hy] _ [ys IH]]; [now exists [] |].
  exists (y :: ys). cbn [omapM]. rewrite Hy. cbn [obind]. now rewrite IH.
Qed.

Section Loop.
Variable repr : value -> string.

Lemma format_pr_returns (item : gmap string value) :
  api_item item -> exists out, format_pr_as_xml repr item = Return out.
Proof.
  intros Hitem.
  destruct (GenerateTheorems.comments_xml_returns repr item Hitem) as [block Hblock].
  destruct Hitem as (Huser & _ & _).
  unfold format_pr_as_xml. rewrite Hblock. cbn [obind].
  unfold has_user_object in Huser. unfold default_or_lookup at 1.
  destruct (item !! "user") as [[| | | | | | user] |]; try contradiction;
    now eexists.
Qed.

Lemma format_issue_returns (item : gmap string value) :
  api_item item -> exists out, format_issue_as_xml repr item = Return out.
Proof.
  intros Hitem.
  destruct (GenerateTheorems.comments_xml_returns repr item Hitem) as [block Hblock].
  destruct Hitem as (Huser & _ & Hlabels).
  unfold format_issue_as_xml.
  destruct (item !! "pull_request"); [now eexists |].
  rewrite Hblock. cbn [obind].
  assert (Hauthor : exists author,
            get (default_or_lookup item "user" (VDict ∅)) "login" (VStr "unknown")
            = Return author).
  { unfold has_user_object in Huser. unfold default_or_lookup at 1.
    destruct (item !! "user") as [[| | | | | | user] |]; try contradiction;
      now eexists. }
  destruct Hauthor as [author ->]. cbn [obind].
  assert (Hnames : exists labels names,
            iter (default_or_lookup item "labels" (VList [])) = Return labels /\
            omapM (fun label => subscript label "name") labels
            = Return (VStr <$> names)).
  { unfold default_or_lookup.
    destruct (item !! "labels") as [[| | | | | labels |] |]; try contradiction.
    - destruct (GenerateTheorems.label_names_returns labels Hlabels) as [names Hnames].
      now exists labels, names.
    - now exists [], []. }
  destruct Hnames as (labels & names & -> & Hnames). cbn [obind].
  rewrite Hnames. cbn [obind]. rewrite GenerateTheorems.join_strings. now eexists.
Qed.

Lemma format_examples_returns (examples : list (gmap string value)) (i : nat) :
  Forall usable_example examples ->
  exists lines, format_examples repr i examples = Return lines.
Proof.
  intros Hall. revert i.
  induction Hall as [| ex rest [[id Hid] [task Htask]] _ IH]; intros i;
    [now exists [] |].
  cbn [format_examples subscript]. rewrite Hid, Htask. cbn [obind].
  destruct (IH (S i)) as [lines ->]. now eexists.
Qed.

Lemma generation_inputs_returns (task_type task_description : string)
    (prs issues examples : list (gmap string value)) (repo_name : string)
    (num_tasks : Z) :
  Forall api_item prs -> Forall api_item issues ->
  Forall usable_example examples ->
  exists inputs,
    generation_inputs repr task_type task_description prs issues examples
      repo_name num_tasks = Return inputs.
Proof.
  intros Hprs Hissues Hexamples. unfold generation_inputs.
  destruct (omapM_returns (format_pr_as_xml repr) (take 30 prs)) as [pr_xmls ->].
  { apply Forall_take. eapply Forall_impl; [exact Hprs |]. apply format_pr_returns. }
  cbn [obind].
  destruct (omapM_returns (format_issue_as_xml repr) (take 30 issues))
    as [issue_xmls ->].
  { apply Forall_take. eapply Forall_impl; [exact Hissues |].
    apply format_issue_returns. }
  cbn [obind].
  destruct (format_examples_returns examples 0 Hexamples) as [lines ->].
  now eexists.
Qed.

Lemma type_examples_returns (task_type : string)
    (examples : list (gmap string value)) :
  Forall usable_example examples ->
  exists matching,
    type_examples task_type examples = Return matching /\
    Forall usable_example matching.
Proof.
  induction 1 as [| ex rest Hex _ (matching & IH & Hmatching)];
    [now exists [] |].
  destruct Hex as [[id Hid] Htask] eqn:Hexample.
  cbn [type_examples subscript]. rewrite Hid. cbn [obind str_in]. rewrite IH.
  cbn [obind]. destruct (contains task_type id); eexists; split;
    try reflexivity; auto.
Qed.

Variable L : lm.

(** One generation call, on inputs that render: it returns, after one or
    two calls of the capabilities, and tags what it returns. *)
Lemma generate_tasks_for_type_returns (task_type task_description : string)
    (prs issues examples : list (gmap string value)) (repo_name : string)
    (num_tasks : Z) (k : nat) :
  Forall api_item prs -> Forall api_item issues ->
  Forall usable_example examples ->
  exists tasks k',
    generate_tasks_for_type repr L task_type task_description prs issues examples
      repo_name num_tasks k = (Return tasks, k') /\
    k + 1 <= k' <= k + 2 /\
    Forall (tagged repo_name) tasks /\
    ((forall j i, exists e, generator L j i = Raise e) -> tasks = [] /\ k' = k + 1).
Proof.
  intros Hprs Hissues Hexamples.
  destruct (generation_inputs_returns task_type task_description prs issues examples
              repo_name num_tasks Hprs Hissues Hexamples) as [inputs Hinputs].
  unfold generate_tasks_for_type, bind, lift, try_except, call_generator,
    call_deduplicator, ret.
  rewrite Hinputs.
  destruct (generator L k inputs) as [[tasks reasoning] | e] eqn:Hgen.
  - cbn [fst].
    destruct (deduplicator L (S k) tasks) as [[unique_tasks removed] | e].
    + eexists _, _. split; [reflexivity |]. split; [lia |]. split.
      * apply Forall_fmap, Forall_forall. intros task _. reflexivity.
      * intros Hfails. destruct (Hfails k inputs) as [e He]. congruence.
    + eexists _, _. split; [reflexivity |]. split; [lia |]. split; [constructor |].
      intros Hfails. destruct (Hfails k inputs) as [e' He]. congruence.
  - eexists _, _. split; [reflexivity |]. split; [lia |]. split; [constructor |].
    intros _. split; [reflexivity | lia].
Qed.

Lemma for_task_types_returns (types : list (string * string))
    (prs issues examples : list (gmap string value)) (repo_name : string)
    (num_tasks : Z) (all_tasks : list (gmap string value)) (k : nat) :
  Forall api_item prs -> Forall api_item issues ->
  Forall usable_example examples ->
  exists new_tasks k',
    for_task_types repr L types prs issues examples repo_name num_tasks all_tasks k
      = (Return (all_tasks ++ new_tasks), k') /\
    k + length types <= k' <= k + 2 * length types /\
    Forall (tagged repo_name) new_tasks /\
    ((forall j i, exists e, generator L j i = Raise e) ->
     new_tasks = [] /\ k' = k + length types).
Proof.
  intros Hprs Hissues Hexamples. revert all_tasks k.
  induction types as [| [task_type description] rest IH]; intros all_tasks k.
  { exists [], k. cbn. rewrite app_nil_r. repeat split; auto; lia. }
  cbn [for_task_types]. unfold bind at 1, lift.
  destruct (type_examples_returns task_type examples Hexamples)
    as (matching & -> & Hmatching).
  assert (Hchosen : Forall usable_example
                      (match matching with [] => examples | _ => matching end)).
  { now destruct matching. }
  destruct (generate_tasks_for_type_returns task_type description prs issues
              (match matching with [] => examples | _ => matching end)
              repo_name num_tasks k Hprs Hissues Hchosen)
    as (tasks & k1 & Hrun & Hk1 & Htagged & Hfails).
  unfold bind. rewrite Hrun.
  destruct (IH (all_tasks ++ tasks) k1) as (new_tasks & k' & -> & Hk' & Htagged' & Hfails').
  exists (tasks ++ new_tasks), k'. split; [now rewrite app_assoc |].
  cbn [length]. split; [lia |]. split; [now apply Forall_app |].
  intros Hall. destruct (Hfails Hall) as [-> ->].
  destruct (Hfails' Hall) as [-> ->]. split; [reflexivity | lia].
Qed.

(** X26.  On pull requests and issues as the API delivers them and on
    examples that have a text id and a task, the run over the five task
    types always returns a task list and raises nothing, whatever the two
    capabilities do: a failure in one type costs that type its tasks and
    no more.  It calls the capabilities at least five and at most ten
    times, every task it returns carries the directory name of the
    repository, and when the generator fails every time the list is empty
    after exactly five calls. *)
Theorem generate_all_tasks_isolates_failures
    (prs issues examples : list (gmap string value)) (repo_name : string)
    (num_tasks : Z) (k : nat) :
  Forall api_item prs -> Forall api_item issues ->
  Forall usable_example examples ->
  exists all_tasks k',
    generate_all_tasks repr L prs issues examples repo_name num_tasks k
      = (Return all_tasks, k') /\
    k + 5 <= k' <= k + 10 /\
    Forall (tagged repo_name) all_tasks /\
    ((forall j i, exists e, generator L j i = Raise e) ->
     all_tasks = [] /\ k' = k + 5).
Proof.
  intros Hprs Hissues Hexamples. unfold generate_all_tasks.
  destruct (for_task_types_returns task_types prs issues examples repo_name
              num_tasks [] k Hprs Hissues Hexamples)
    as (new_tasks & k' & Hrun & Hk' & Htagged & Hfails).
  exists new_tasks, k'. auto.
Qed.

End Loop.

(** ** The theorem at work on concrete runs *)

Lemma gh_item_is_api_item (number : Z) (title : string) : api_item (gh_item number title).
Proof. repeat split. Qed.

Lemma generate_all_tasks_isolates_failures_witness :
  (exists all_tasks k',
     generate_all_tasks repr0 L_dedup_fails [long_thread] [gh_item 11 "Crash on load"]
       [example_task] "dspy" 10 0 = (Return all_tasks, k') /\
     0 + 5 <= k' <= 0 + 10 /\
     Forall (tagged "dspy") all_tasks) /\
  generate_all_tasks repr0 L_generator_fails [long_thread] [gh_item 11 "Crash on load"]
    [example_task] "dspy" 10 0 = (Return [], 5).
Proof.
  assert (Hprs : Forall api_item [long_thread]).
  { constructor; [exact GenerateTheorems.long_thread_is_api_item | constructor]. }
  assert (Hissues : Forall api_item [gh_item 11 "Crash on load"]).
  { constructor; [apply gh_item_is_api_item | constructor]. }
  assert (Hexamples : Forall usable_example [example_task]).
  { constructor; [| constructor]. split; [now eexists | now eexists]. }
  split.
  - destruct (generate_all_tasks_isolates_failures repr0 L_dedup_fails [long_thread]
                [gh_item 11 "Crash on load"] [example_task] "dspy" 10 0
                Hprs Hissues Hexamples) as (all_tasks & k' & Hrun & Hk' & Htagged & _).
    now exists all_tasks, k'.
  - destruct (generate_all_tasks_isolates_failures repr0 L_generator_fails [long_thread]
                [gh_item 11 "Crash on load"] [example_task] "dspy" 10 0
                Hprs Hissues Hexamples) as (all_tasks & k' & Hrun & _ & _ & Hfails).
    destruct Hfails as [-> ->]; [intros j i; now exists quota_error |].
    exact Hrun.
Defined.

End LoopExtras.
